(** * amazon_scraper.py: the resilient fetch and the record assembler

    A shallow embedding of [AmazonProductScraper] (src/amazon_scraper.py).

    Conventions of the model.
    - A Python [str] is a [string]: a sequence of code points below 256.
      [str.lower], [str.strip] and the [in] operator are written out on
      that range.
    - The outside world (network, sleeping, the random generator, the
      clock) is an explicit [World] threaded through every method; what a
      method did to it is read off the [trace].
    - [requests.Session.get] either returns a response or raises
      [requests.RequestException]; the session is a function of the number
      of calls made so far, so that any sequence of mocked answers is a
      session.
    - The parser either returns a document or raises; a method in which
      an exception is not handled returns [Raised] together with the world
      it left behind.
    - A sleep is recorded with the interval its duration is drawn from;
      the duration itself, a float, is not modelled.
    - Logging is advisory and never affects control flow; it is left out. *)

From Stdlib Require Import ZArith Ascii String.
From stdpp Require Import base option list strings pretty gmap.

Local Open Scope Z_scope.

(** ** Python strings *)

Module PyStr.

(** The double quote, which a literal cannot hold. *)
Definition dquote : ascii := ascii_of_nat 34.

Definition code (c : ascii) : N := N_of_ascii c.

Definition in_range (lo hi : N) (c : ascii) : bool :=
  ((lo <=? code c) && (code c <=? hi))%N.

(** [str.lower] on one code point: A-Z, and the upper-case letters of
    Latin-1 (U+00C0..U+00DE without the multiplication sign). *)
Definition lower_char (c : ascii) : ascii :=
  if in_range 65 90 c
     || (in_range 192 222 c && negb (code c =? 215)%N)
  then ascii_of_N (code c + 32)
  else c.

Fixpoint lower (s : string) : string :=
  match s with
  | EmptyString => EmptyString
  | String c s' => String (lower_char c) (lower s')
  end.

(** [str.isspace] on one code point below 256. *)
Definition is_space (c : ascii) : bool :=
  in_range 9 13 c || in_range 28 32 c
  || (code c =? 133)%N || (code c =? 160)%N.

Definition is_digit (c : ascii) : bool := in_range 48 57 c.
Definition is_upper (c : ascii) : bool := in_range 65 90 c.
Definition is_lower (c : ascii) : bool := in_range 97 122 c.

(** [bool(s)]: a string is truthy when it is not empty. *)
Definition truthy (s : string) : bool :=
  match s with EmptyString => false | String _ _ => true end.

(** [s.startswith(p)]. *)
Fixpoint startswith (p s : string) : bool :=
  match p, s with
  | EmptyString, _ => true
  | String a p', String b s' => bool_decide (a = b) && startswith p' s'
  | String _ _, EmptyString => false
  end.

(** [sub in s]. *)
Fixpoint contains (sub s : string) : bool :=
  startswith sub s
  || match s with
     | EmptyString => false
     | String _ s' => contains sub s'
     end.

(** [c in s] for a one-character [c]. *)
Fixpoint has_char (c : ascii) (s : string) : bool :=
  match s with
  | EmptyString => false
  | String a s' => bool_decide (a = c) || has_char c s'
  end.

Fixpoint lstrip (s : string) : string :=
  match s with
  | EmptyString => EmptyString
  | String c s' => if is_space c then lstrip s' else s
  end.

Fixpoint rstrip (s : string) : string :=
  match s with
  | EmptyString => EmptyString
  | String c s' =>
      match rstrip s' with
      | EmptyString => if is_space c then EmptyString else String c EmptyString
      | r => String c r
      end
  end.

Definition strip (s : string) : string := rstrip (lstrip s).

(** [''.join(l)]. *)
Definition join (l : list string) : string :=
  foldr String.append EmptyString l.

(** The longest prefix of [s] made of characters in [p], and the rest. *)
Fixpoint span (p : ascii → bool) (s : string) : string * string :=
  match s with
  | EmptyString => (EmptyString, EmptyString)
  | String c s' =>
      if p c then let '(a, b) := span p s' in (String c a, b)
      else (EmptyString, s)
  end.

(** Exactly [n] characters of [s], all in [p], and the rest. *)
Fixpoint take_exact (p : ascii → bool) (n : nat) (s : string)
  : option (string * string) :=
  match n with
  | O => Some (EmptyString, s)
  | S n' =>
      match s with
      | EmptyString => None
      | String c s' =>
          if p c then
            match take_exact p n' s' with
            | Some (a, b) => Some (String c a, b)
            | None => None
            end
          else None
      end
  end.

(** What follows the prefix [p] of [s], when [s] starts with [p]. *)
Fixpoint after_prefix (p s : string) : option string :=
  match p, s with
  | EmptyString, _ => Some s
  | String a p', String b s' =>
      if bool_decide (a = b) then after_prefix p' s' else None
  | String _ _, EmptyString => None
  end.

Fixpoint all_chars (p : ascii → bool) (s : string) : bool :=
  match s with
  | EmptyString => true
  | String c s' => p c && all_chars p s'
  end.

(** [s.split(sep)[0]] for a one-character separator. *)
Fixpoint before_char (sep : ascii) (s : string) : string :=
  match s with
  | EmptyString => EmptyString
  | String c s' =>
      if bool_decide (c = sep) then EmptyString
      else String c (before_char sep s')
  end.

End PyStr.

(** ** The three regular expressions of the scraper *)

Module Re.
Import PyStr.

(** [[A-Z0-9]]. *)
Definition asin_char (c : ascii) : bool := is_upper c || is_digit c.

(** [re.match(r'/dp/([A-Z0-9]{10})', s)]: group 1 of a match that starts
    at the first character of [s]. *)
Definition match_asin (s : string) : option string :=
  match after_prefix "/dp/" s with
  | Some rest =>
      match take_exact asin_char 10 rest with
      | Some (tok, _) => Some tok
      | None => None
      end
  | None => None
  end.

(** [re.search(r'/dp/([A-Z0-9]{10})', s)]: the leftmost match. *)
Fixpoint search_asin (s : string) : option string :=
  match match_asin s with
  | Some tok => Some tok
  | None =>
      match s with
      | EmptyString => None
      | String _ s' => search_asin s'
      end
  end.

(** The image pattern is the key hiRes between double quotes, a colon,
    and a double-quoted group of one or more characters other than the
    double quote. [hires_head] is its literal head, up to the group. *)
Definition hires_head : string :=
  String dquote "hiRes" +:+ String dquote ":" +:+ String dquote EmptyString.

Definition not_dquote (c : ascii) : bool := negb (bool_decide (c = dquote)).

(** A match of the image pattern at the first character of [s]: the
    group, greedy, must be non-empty and be closed by a double quote. *)
Definition match_hires (s : string) : option string :=
  match after_prefix hires_head s with
  | Some rest =>
      match span not_dquote rest with
      | (String c g, String _ _) => Some (String c g)
      | _ => None
      end
  | None => None
  end.

(** [re.findall] scans left to right and resumes after each match:
    [skip] counts the characters of the last match still to pass. *)
Fixpoint findall_hires_from (skip : nat) (s : string) : list string :=
  match s with
  | EmptyString => []
  | String _ s' =>
      match skip with
      | S k => findall_hires_from k s'
      | O =>
          match match_hires s with
          | Some g =>
              g :: findall_hires_from
                     (String.length hires_head + String.length g) s'
          | None => findall_hires_from 0 s'
          end
      end
  end.

Definition findall_hires (s : string) : list string :=
  findall_hires_from 0 s.

(** The rating pattern is one or more digits, an optional dot, then
    any number of digits, all in one group. [match_number] is a match at
    the first character of [s]: every part is greedy and nothing after
    the first digits is mandatory, so no backtracking takes place. *)
Definition match_number (s : string) : option string :=
  match span is_digit s with
  | (String d ds, rest) =>
      match rest with
      | String "." rest' =>
          let '(frac, _) := span is_digit rest' in
          Some (String d ds +:+ "." +:+ frac)
      | _ => Some (String d ds)
      end
  | _ => None
  end.

(** [re.search] with the rating pattern: the leftmost match. *)
Fixpoint search_number (s : string) : option string :=
  match match_number s with
  | Some g => Some g
  | None =>
      match s with
      | EmptyString => None
      | String _ s' => search_number s'
      end
  end.

End Re.

(** ** BeautifulSoup, as far as the scraper looks at it *)

Module Bs4.
Import PyStr.

(** An element: its text nodes in document order, and its attributes. *)
Record Tag := mkTag {
  strings : list string;
  attrs : gmap string string
}.

(** [tag.get_text()]. *)
Definition get_text (t : Tag) : string := join (strings t).

(** [tag.get_text(strip=True)]: every text node is stripped, the empty
    ones are dropped, the rest is joined. *)
Definition get_text_strip (t : Tag) : string :=
  join (filter (λ s, truthy s = true) (strip <$> strings t)).

(** [tag.get(name)]. *)
Definition get (t : Tag) (name : string) : option string := attrs t !! name.

(** A parsed document answers CSS selections. A [Tag] is always truthy,
    so [if element:] asks only whether [select_one] found one. *)
Record Soup := mkSoup { select : string → list Tag }.

Definition select_one (soup : Soup) (selector : string) : option Tag :=
  head (select soup selector).

End Bs4.

(** ** requests *)

Module Requests.

Record Response := mkResponse {
  status_code : Z;
  text : string;
  content : string
}.

(** [bool(response)] is [response.ok]: no 4xx or 5xx status. *)
Definition ok (r : Response) : bool :=
  negb (bool_decide (400 ≤ status_code r) && bool_decide (status_code r < 600)).

Definition Headers := list (string * string).

(** What a call comes to: a value, or an exception. *)
Inductive Outcome (A : Type) :=
| Returned (a : A)
| Raised (exn : string).
Arguments Returned {A} a.
Arguments Raised {A} exn.

(** [session.get]: the answer to the [n]-th call, for a URL and a header
    bundle. [Raised] stands for a [requests.RequestException]. *)
Definition Session := nat → string → Headers → Outcome Response.

End Requests.

(** ** The world the scraper acts on *)

Import PyStr Re Bs4 Requests.

(** What the scraper did to the outside: an HTTP GET, or a sleep of a
    duration drawn from the closed interval [lo, hi]. *)
Inductive Event :=
| EvGet (url : string) (headers : Headers)
| EvSleep (lo hi : Z).

Global Instance Event_eq_dec : EqDecision Event.
Proof. solve_decision. Defined.

(** [calls]: GETs issued so far; [draws]: random numbers drawn so far;
    [trace]: everything done so far, oldest first. *)
Record World := mkWorld {
  calls : nat;
  draws : nat;
  trace : list Event
}.

Definition is_get (e : Event) : bool :=
  match e with EvGet _ _ => true | EvSleep _ _ => false end.

Definition is_sleep (e : Event) : bool :=
  match e with EvSleep _ _ => true | EvGet _ _ => false end.

(** The HTTP attempts and the backoff delays of a piece of trace. *)
Definition attempts_in (tr : list Event) : nat :=
  length (filter (λ e, is_get e = true) tr).

Definition delays_in (tr : list Event) : nat :=
  length (filter (λ e, is_sleep e = true) tr).

(** ** AmazonProductScraper *)

Record Scraper := mkScraper {
  delay_range : Z * Z;
  max_retries : Z;
  session : Session;
  user_agents : list string
}.

(** A product record: the values a key of [product_data] can hold. *)
Inductive Value :=
| VNone
| VStr (s : string)
| VList (l : list string).

Global Instance Value_eq_dec : EqDecision Value.
Proof. solve_decision. Defined.

Definition of_option (o : option string) : Value :=
  match o with Some s => VStr s | None => VNone end.

(** [range(n)] and [range(a, b)]. *)
Definition range (n : Z) : list Z := seqZ 0 n.
Definition range2 (a b : Z) : list Z := seqZ a (b - a).

Section Scraper.

(** The [k]-th number the random generator hands out. *)
Variable entropy : nat → nat.
(** [datetime.now().isoformat()], read in a given world. *)
Variable now_isoformat : World → string.
(** [BeautifulSoup(markup, 'html.parser')]: the parsed document, or the
    exception of a builder that rejects the markup
    ([bs4.exceptions.ParserRejectedMarkup]). No caller of the parser
    handles it: it leaves the method that parsed. *)
Variable BeautifulSoup : string → Outcome Soup.
(** [urllib.parse.urljoin]. *)
Variable urljoin : string → string → string.
(** [requests.Session()]: the network a fresh session talks to. *)
Variable network : Session.

Definition default_user_agents : list string :=
  [ "Mozilla/5.0 (Windows NT 10.0; Win64; x64) AppleWebKit/537.36 (KHTML, like Gecko) Chrome/120.0.0.0 Safari/537.36";
    "Mozilla/5.0 (Macintosh; Intel Mac OS X 10_15_7) AppleWebKit/537.36 (KHTML, like Gecko) Chrome/120.0.0.0 Safari/537.36";
    "Mozilla/5.0 (X11; Linux x86_64) AppleWebKit/537.36 (KHTML, like Gecko) Chrome/120.0.0.0 Safari/537.36";
    "Mozilla/5.0 (Windows NT 10.0; Win64; x64; rv:109.0) Gecko/20100101 Firefox/121.0";
    "Mozilla/5.0 (Macintosh; Intel Mac OS X 10_15_7) AppleWebKit/605.1.15 (KHTML, like Gecko) Version/17.2 Safari/605.1.15" ].

(** [AmazonProductScraper(delay_range, max_retries)]. The body stores
    its arguments and nothing else: no path of it raises. *)
Definition __init__ (delay_range : Z * Z) (max_retries : Z)
  : Outcome Scraper :=
  Returned {| delay_range := delay_range;
              max_retries := max_retries;
              session := network;
              user_agents := default_user_agents |}.

(** [random.choice(l)]. *)
Definition random_choice (l : list string) (w : World) : string * World :=
  (nth (entropy (draws w) mod length l)%nat l EmptyString,
   {| calls := calls w; draws := S (draws w); trace := trace w |}).

Definition _get_headers (self : Scraper) (w : World) : Headers * World :=
  let '(ua, w) := random_choice (user_agents self) w in
  ([ ("User-Agent", ua);
     ("Accept", "text/html,application/xhtml+xml,application/xml;q=0.9,image/webp,*/*;q=0.8");
     ("Accept-Language", "en-US,en;q=0.5");
     ("Accept-Encoding", "gzip, deflate");
     ("Connection", "keep-alive");
     ("Upgrade-Insecure-Requests", "1") ], w).

(** [random.uniform] draws once, [time.sleep] waits. *)
Definition _delay (self : Scraper) (w : World) : World :=
  {| calls := calls w;
     draws := S (draws w);
     trace := trace w ++ [EvSleep (delay_range self).1 (delay_range self).2] |}.

(** [self.session.get(url, headers=..., timeout=10)]. *)
Definition session_get (self : Scraper) (url : string) (headers : Headers)
    (w : World) : Outcome Response * World :=
  (session self (calls w) url headers,
   {| calls := S (calls w);
      draws := draws w;
      trace := trace w ++ [EvGet url headers] |}).

(** The anti-bot test on a 200 response. *)
Definition blocked (response : Response) : bool :=
  contains "robot" (lower (text response))
  || contains "captcha" (lower (text response)).

(** The body of [for attempt in range(self.max_retries)], over the
    attempts still to run; running out of them is the exit of the loop,
    where [_make_request] returns [None]. *)
Fixpoint attempt_loop (self : Scraper) (url : string) (todo : list Z)
    (w : World) : option Response * World :=
  match todo with
  | [] => (None, w)
  | attempt :: todo' =>
      let fall_through (w : World) :=
        attempt_loop self url todo'
          (if bool_decide (attempt < max_retries self - 1)
           then _delay self w else w) in
      let '(headers, w) := _get_headers self w in
      let '(got, w) := session_get self url headers w in
      match got with
      | Returned response =>
          if bool_decide (status_code response = 200) then
            if blocked response then
              attempt_loop self url todo' (_delay self w)
            else (Some response, w)
          else fall_through w
      | Raised _ => fall_through w
      end
  end.

Definition _make_request (self : Scraper) (url : string) (w : World)
  : option Response * World :=
  attempt_loop self url (range (max_retries self)) w.

(** *** Field extractors *)

(** [for selector in selectors: ...]: the body either returns a value or
    goes on to the next selector; after the loop comes [return None]. *)
Fixpoint for_selectors (body : string → option string)
    (selectors : list string) : option string :=
  match selectors with
  | [] => None
  | selector :: rest =>
      match body selector with
      | Some v => Some v
      | None => for_selectors body rest
      end
  end.

Definition _extract_title (soup : Soup) : option string :=
  for_selectors
    (λ selector,
       match select_one soup selector with
       | Some element => Some (get_text_strip element)
       | None => None
       end)
    [ "#productTitle"; ".product-title"; "h1.a-size-large" ].

Definition _extract_price (soup : Soup) : option string :=
  for_selectors
    (λ selector,
       match select_one soup selector with
       | Some element =>
           let price_text := get_text_strip element in
           if truthy price_text && contains "$" price_text
           then Some price_text else None
       | None => None
       end)
    [ ".a-price .a-offscreen"; ".a-price-whole"; "#price_inside_buybox";
      ".a-price.a-text-price.a-size-medium.apexPriceToPay .a-offscreen";
      ".a-price-range .a-offscreen" ].

Definition _extract_rating (soup : Soup) : option string :=
  match select_one soup "span.a-icon-alt" with
  | Some rating_element => search_number (get_text rating_element)
  | None => None
  end.

Definition _extract_rating_count (soup : Soup) : option string :=
  for_selectors
    (λ selector,
       match select_one soup selector with
       | Some element =>
           if contains "rating" (lower (get_text element))
           then Some (get_text_strip element) else None
       | None => None
       end)
    [ "#acrCustomerReviewText"; ".a-size-base.a-color-base" ].

Definition _extract_availability (soup : Soup) : option string :=
  for_selectors
    (λ selector,
       match select_one soup selector with
       | Some element =>
           let availability := get_text_strip element in
           if truthy availability
              && bool_decide (String.length availability < 100)%nat
           then Some availability else None
       | None => None
       end)
    [ "#availability span"; ".a-size-medium.a-color-success";
      ".a-size-medium.a-color-price" ].

(** The selector of the landing image; its value is double-quoted. *)
Definition landing_image_selector : string :=
  "img[data-a-image-name=" +:+ String dquote "landingImage"
    +:+ String dquote "]".

Definition _extract_images (soup : Soup) (html_content : string)
  : list string :=
  let images : list string := [] in
  let matches := findall_hires html_content in
  let images :=
    match matches with [] => images | _ => images ++ matches end in
  let images :=
    match images with
    | [] =>
        foldl (λ images img,
                 match get img "src" with
                 | Some src =>
                     if truthy src && contains "http" src
                     then images ++ [src] else images
                 | None => images
                 end)
              images (select soup landing_image_selector)
    | _ => images
    end in
  elements (list_to_set images : gset string).

Definition _extract_features (soup : Soup) : list string :=
  foldl (λ features element,
           let feature_text := get_text_strip element in
           if truthy feature_text
              && bool_decide (10 < String.length feature_text)%nat
           then features ++ [feature_text] else features)
        [] (select soup "#feature-bullets li span.a-list-item").

Definition _extract_description (soup : Soup) : option string :=
  for_selectors
    (λ selector,
       match select_one soup selector with
       | Some element =>
           let description := get_text_strip element in
           if truthy description
              && bool_decide (50 < String.length description)%nat
           then Some description else None
       | None => None
       end)
    [ "#productDescription p"; "#aplus .aplus-p1";
      ".a-section.a-spacing-medium" ].

(** *** The record assembler *)

Definition scrape_product (self : Scraper) (product_url : string)
    (w : World) : Outcome (option (gmap string Value)) * World :=
  let '(response, w) := _make_request self product_url w in
  match response with
  | None => (Returned None, w)
  | Some response =>
      if negb (ok response) then (Returned None, w)
      else
        match BeautifulSoup (content response) with
        | Raised exn => (Raised exn, w)
        | Returned soup =>
            let asin := search_asin product_url in
            let product_data : gmap string Value :=
              list_to_map
                [ ("asin", of_option asin);
                  ("url", VStr product_url);
                  ("title", of_option (_extract_title soup));
                  ("price", of_option (_extract_price soup));
                  ("rating", of_option (_extract_rating soup));
                  ("rating_count", of_option (_extract_rating_count soup));
                  ("availability", of_option (_extract_availability soup));
                  ("images", VList (_extract_images soup (text response)));
                  ("features", VList (_extract_features soup));
                  ("description", of_option (_extract_description soup));
                  ("scraped_at", VStr (now_isoformat w)) ] in
            let product_data :=
              filter (λ kv, kv.2 ≠ VNone) product_data in
            (Returned (Some product_data), w)
        end
  end.

(** *** The listing walker *)

Definition search_result_selector : string :=
  "[data-component-type=" +:+ String dquote "s-search-result"
    +:+ String dquote "] h2 a".

Fixpoint page_loop (self : Scraper) (keyword : string) (todo : list Z)
    (product_urls : list string) (w : World)
  : Outcome (list string) * World :=
  match todo with
  | [] => (Returned product_urls, w)
  | page :: todo' =>
      let search_url :=
        "https://www.amazon.com/s?k=" +:+ keyword +:+ "&page="
          +:+ pretty page in
      let '(response, w) := _make_request self search_url w in
      match response with
      | None => page_loop self keyword todo' product_urls w
      | Some response =>
          if negb (ok response)
          then page_loop self keyword todo' product_urls w
          else
            match BeautifulSoup (content response) with
            | Raised exn => (Raised exn, w)
            | Returned soup =>
                let product_elements := select soup search_result_selector in
                let product_urls :=
                  foldl (λ product_urls element,
                           match get element "href" with
                           | Some relative_url =>
                               if truthy relative_url then
                                 product_urls
                                   ++ [urljoin "https://www.amazon.com"
                                         (before_char "?" relative_url)]
                               else product_urls
                           | None => product_urls
                           end)
                        product_urls product_elements in
                page_loop self keyword todo' product_urls (_delay self w)
            end
      end
  end.

Definition search_products (self : Scraper) (keyword : string) (pages : Z)
    (w : World) : Outcome (list string) * World :=
  page_loop self keyword (range2 1 (pages + 1)) [] w.

(** *** Several products *)

(** [enumerate(l, 1)]. *)
Definition enumerate1 (l : list string) : list (Z * string) :=
  zip (seqZ 1 (Z.of_nat (length l))) l.

Fixpoint product_loop (self : Scraper) (len : Z) (todo : list (Z * string))
    (products : list (gmap string Value)) (w : World)
  : Outcome (list (gmap string Value)) * World :=
  match todo with
  | [] => (Returned products, w)
  | (i, url) :: todo' =>
      let '(scraped, w) := scrape_product self url w in
      match scraped with
      | Raised exn => (Raised exn, w)
      | Returned product_data =>
          let products :=
            match product_data with
            | Some d =>
                if bool_decide (d ≠ ∅) then products ++ [d] else products
            | None => products
            end in
          let w := if bool_decide (i < len) then _delay self w else w in
          product_loop self len todo' products w
      end
  end.

Definition scrape_multiple_products (self : Scraper)
    (product_urls : list string) (w : World)
  : Outcome (list (gmap string Value)) * World :=
  product_loop self (Z.of_nat (length product_urls)) (enumerate1 product_urls) [] w.

End Scraper.

(** ** The vocabulary of the specification *)

(** [marker] occurs in [body] when case is ignored: some substring of
    [body] lower-cases to the lower-cased marker. *)
Definition occurs_ignoring_case (marker body : string) : Prop :=
  ∃ pre mid post,
    body = pre +:+ mid +:+ post ∧ lower mid = lower marker.

(** How a piece of trace alternates: [true] for a GET, [false] for a
    sleep. *)
Definition shape (tr : list Event) : list bool := is_get <$> tr.

(** The events one attempt that fails without a block page leaves. *)
Definition failed_attempt_shape (self : Scraper) (attempt : Z) : list bool :=
  true :: if bool_decide (attempt < max_retries self - 1) then [false] else [].

(** A session that never answers 200. *)
Definition never_200 (s : Session) : Prop :=
  ∀ n url headers,
    match s n url headers with
    | Returned r => status_code r ≠ 200
    | Raised _ => True
    end.

(** [[A-Za-z0-9]]: the alphanumeric characters of the specification. *)
Definition is_alnum (c : ascii) : bool := is_upper c || is_lower c || is_digit c.

(** [url] holds, after [pre], a [/dp/] segment followed by the
    ten-character token [tok], all of whose characters are in [cls]. *)
Definition dp_token_at (cls : ascii → bool) (url pre tok post : string) : Prop :=
  url = pre +:+ "/dp/" +:+ tok +:+ post
  ∧ String.length tok = 10%nat
  ∧ all_chars cls tok = true.

(** The dictionary [scrape_product] builds from a response that passed the
    fetch, before and after the [None] values are removed. *)
Definition product_data (now : string) (soup : Soup) (url : string)
    (response : Response) : gmap string Value :=
  list_to_map
    [ ("asin", of_option (search_asin url));
      ("url", VStr url);
      ("title", of_option (_extract_title soup));
      ("price", of_option (_extract_price soup));
      ("rating", of_option (_extract_rating soup));
      ("rating_count", of_option (_extract_rating_count soup));
      ("availability", of_option (_extract_availability soup));
      ("images", VList (_extract_images soup (text response)));
      ("features", VList (_extract_features soup));
      ("description", of_option (_extract_description soup));
      ("scraped_at", VStr now) ].

Definition without_None (d : gmap string Value) : gmap string Value :=
  filter (λ kv, kv.2 ≠ VNone) d.

(** A value that is not empty, in the words of the specification: a string
    is non-empty after trimming, a set or sequence has an element. *)
Definition non_empty_value (v : Value) : Prop :=
  match v with
  | VNone => False
  | VStr s => strip s ≠ EmptyString
  | VList l => l ≠ []
  end.

(** A non-empty string whose first character is not white space. *)
Definition starts_clean (s : string) : Prop :=
  match s with
  | EmptyString => False
  | String c _ => is_space c = false
  end.

(** The optional fields whose extractors refuse an empty text. *)
Definition filtered_fields : list string :=
  [ "asin"; "price"; "rating"; "rating_count"; "availability"; "description" ].

(** The record a scrape contributes to a run: the one it returned, and
    none when it returned [None] or raised. *)
Definition kept_record (outcome : Outcome (option (gmap string Value)))
  : option (gmap string Value) :=
  match outcome with
  | Returned scraped => scraped
  | Raised _ => None
  end.

(** A scrape that came back, with or without a record. *)
Definition came_back (outcome : Outcome (option (gmap string Value))) : Prop :=
  ∃ scraped, outcome = Returned scraped.

Section Isolation.

Variable entropy : nat → nat.
Variable now_isoformat : World → string.
Variable BeautifulSoup : string → Outcome Soup.

(** A multi-URL run in the words of the specification: every URL is
    scraped in turn, whatever became of the ones before it, with a delay
    between two URLs; the outcome of each one is kept. *)
Fixpoint scrape_each (self : Scraper) (urls : list string) (w : World)
  : list (Outcome (option (gmap string Value))) * World :=
  match urls with
  | [] => ([], w)
  | url :: rest =>
      let '(outcome, w) :=
        scrape_product entropy now_isoformat BeautifulSoup self url w in
      let w := match rest with [] => w | _ :: _ => _delay self w end in
      let '(outcomes, w) := scrape_each self rest w in
      (outcome :: outcomes, w)
  end.

End Isolation.

(** ** Mocked collaborators, for running the model on concrete inputs *)

Module Mock.

(** A response whose text and content are the same body. *)
Definition response (status : Z) (body : string) : Response :=
  {| status_code := status; text := body; content := body |}.

(** A session that gives the same answer to every call. *)
Definition always (answer : Outcome Response) : Session := λ _ _ _, answer.

(** A session that plays a list of answers, then raises. *)
Definition script (answers : list (Outcome Response)) : Session :=
  λ n _ _, nth n answers (Raised "ConnectionError").

Definition scraper (max_retries : Z) (session : Session) : Scraper :=
  {| delay_range := (1, 3);
     max_retries := max_retries;
     session := session;
     user_agents := default_user_agents |}.

Definition fresh : World := {| calls := 0; draws := 0; trace := [] |}.

Definition entropy : nat → nat := λ k, k.

Definition clock : World → string := λ _, "2025-01-08T10:30:00".

(** A document in which no selector finds anything. *)
Definition no_match : Soup := {| select := λ _, [] |}.

(** A parser that accepts every markup and reads it as [soup]. *)
Definition parsed (soup : Soup) : string → Outcome Soup := λ _, Returned soup.

(** A parser that reads every markup as [soup], except that it rejects a
    marked section with an unknown keyword, as the builder for Python's
    [html.parser] does. *)
Definition strict (soup : Soup) : string → Outcome Soup :=
  λ markup,
    if contains "<![UNKNOWN[" markup
    then Raised "ParserRejectedMarkup" else Returned soup.

(** A document whose title element holds only white space. *)
Definition blank_title : Soup :=
  {| select := λ selector,
       if bool_decide (selector = "#productTitle")
       then [ {| strings := ["  "]; attrs := ∅ |} ] else [] |}.

Definition urljoin : string → string → string := λ base rel, base +:+ rel.

Definition product_url : string := "https://www.amazon.com/dp/B08N5WRWNW".

End Mock.

Module Sample.

Definition tag (text : string) : Tag := {| strings := [text]; attrs := ∅ |}.

(** A product page with a title, a price, three feature bullets and
    nothing else. *)
Definition page : Soup :=
  {| select := λ selector,
       if bool_decide (selector = "#productTitle") then
         [ tag "  Wireless Mouse  " ]
       else if bool_decide (selector = ".a-price .a-offscreen") then
         [ tag "$19.99" ]
       else if bool_decide (selector = "#feature-bullets li span.a-list-item") then
         [ tag " 2.4 GHz wireless receiver ";
           tag "Ergonomic right-handed shape";
           tag "Battery lasts twelve months" ]
       else [] |}.

Definition clean : Response := Mock.response 200 "<html>Wireless Mouse</html>".

(** Three URLs; the session answers the second one with a 503. *)
Definition urls : list string :=
  [ "https://www.amazon.com/dp/B08N5WRWNW";
    "https://www.amazon.com/dp/B123456789";
    "https://www.amazon.com/dp/B987654321" ].

Definition second_fails : Session :=
  Mock.script [ Returned clean;
                Returned (Mock.response 503 "Service Unavailable");
                Returned clean ].

(** A clean 200 whose body is a marked section with an unknown keyword. *)
Definition rejected : Response := Mock.response 200 "<![UNKNOWN[]]>".


End Sample.

(** ** Vocabulary for the properties beyond the specification *)

(** The header bundle [_get_headers] builds around a user agent. *)
Definition header_bundle (ua : string) : Headers :=
  [ ("User-Agent", ua);
    ("Accept", "text/html,application/xhtml+xml,application/xml;q=0.9,image/webp,*/*;q=0.8");
    ("Accept-Language", "en-US,en;q=0.5");
    ("Accept-Encoding", "gzip, deflate");
    ("Connection", "keep-alive");
    ("Upgrade-Insecure-Requests", "1") ].

(** An event a fetch of [url] by [self] may leave: a GET of that URL under
    a user agent of the pool, or a sleep over the configured interval. *)
Definition fetch_event (self : Scraper) (url : string) (e : Event) : Prop :=
  match e with
  | EvGet u headers =>
      u = url ∧ ∃ ua, ua ∈ user_agents self ∧ headers = header_bundle ua
  | EvSleep lo hi => (lo, hi) = delay_range self
  end.

(** A shape that alternates, starting with a GET when [expect_get]. *)
Fixpoint alternates (expect_get : bool) (sh : list bool) : bool :=
  match sh with
  | [] => true
  | b :: rest => bool_decide (b = expect_get) && alternates (negb expect_get) rest
  end.

(** A 200 that the anti-bot test lets through. *)
Definition clean (r : Response) : Prop :=
  status_code r = 200 ∧ blocked r = false.

(** An answer that makes the fetch go on: an exception, a status other
    than 200, or a block page. *)
Definition retried (answer : Outcome Response) : Prop :=
  match answer with
  | Returned r => status_code r ≠ 200 ∨ blocked r = true
  | Raised _ => True
  end.

(** The selectors of the extractors, in the order they are tried. *)
Definition title_selectors : list string :=
  [ "#productTitle"; ".product-title"; "h1.a-size-large" ].

Definition price_selectors : list string :=
  [ ".a-price .a-offscreen"; ".a-price-whole"; "#price_inside_buybox";
    ".a-price.a-text-price.a-size-medium.apexPriceToPay .a-offscreen";
    ".a-price-range .a-offscreen" ].

Definition rating_count_selectors : list string :=
  [ "#acrCustomerReviewText"; ".a-size-base.a-color-base" ].

(** A decimal numeral as the rating pattern reads it: digits, then
    possibly a dot and further digits (none is allowed after the dot). *)
Definition decimal_numeral (g : string) : Prop :=
  ∃ ints frac,
    ints ≠ EmptyString
    ∧ all_chars is_digit ints = true
    ∧ all_chars is_digit frac = true
    ∧ (g = ints ∨ g = ints +:+ "." +:+ frac).

(** The [src] of an image element, when the fallback of
    [_extract_images] accepts it. *)
Definition accepted_src (img : Tag) : option string :=
  match get img "src" with
  | Some src => if truthy src && contains "http" src then Some src else None
  | None => None
  end.

(** The eleven keys a product record can hold. *)
Definition field_names : list string :=
  [ "asin"; "url"; "title"; "price"; "rating"; "rating_count";
    "availability"; "images"; "features"; "description"; "scraped_at" ].

(** The URL of one page of search results. *)
Definition search_url (keyword : string) (page : Z) : string :=
  "https://www.amazon.com/s?k=" +:+ keyword +:+ "&page=" +:+ pretty page.

(** An event the walk over [pages] pages may leave: a GET of the search
    URL of one of the pages, or a sleep over the configured interval. *)
Definition walk_event (self : Scraper) (keyword : string) (pages : Z)
    (e : Event) : Prop :=
  match e with
  | EvGet u _ => ∃ page, 1 ≤ page ≤ pages ∧ u = search_url keyword page
  | EvSleep lo hi => (lo, hi) = delay_range self
  end.

(** A session whose every answer is a clean 200. *)
Definition always_clean (s : Session) : Prop :=
  ∀ n url headers, ∃ r, s n url headers = Returned r ∧ clean r.

Section Links.

Variable urljoin : string → string → string.

(** The link [search_products] collects from one result anchor: its
    [href], when it has a non-empty one, cut at the first question mark
    and joined to the site. *)
Definition anchor_link (element : Tag) : option string :=
  match get element "href" with
  | Some relative_url =>
      if truthy relative_url
      then Some (urljoin "https://www.amazon.com" (before_char "?" relative_url))
      else None
  | None => None
  end.

(** The links of one page of results, in document order. *)
Definition page_links (soup : Soup) : list string :=
  omap anchor_link (select soup search_result_selector).

End Links.

(** The [url] entry of a record, and the entry a scrape of [u] stores. *)
Definition record_url (rec : gmap string Value) : option Value := rec !! "url".
Definition url_entry (u : string) : option Value := Some (VStr u).

(** An event a run over [urls] may leave: a GET of one of them, or a
    sleep over the configured interval. *)
Definition run_event (self : Scraper) (urls : list string) (e : Event) : Prop :=
  match e with
  | EvGet u _ => u ∈ urls
  | EvSleep lo hi => (lo, hi) = delay_range self
  end.

(** Further concrete inputs. *)
Module Fixture.

(** A product page with a rating, a rating count, an availability, a
    description, and prices that lack the dollar sign. *)
Definition detail : Soup :=
  {| select := λ selector,
       if bool_decide (selector = "span.a-icon-alt") then
         [ Sample.tag "4.5 out of 5 stars" ]
       else if bool_decide (selector = "#acrCustomerReviewText") then
         [ Sample.tag " 1,234 ratings " ]
       else if bool_decide (selector = "#availability span") then
         [ Sample.tag " In Stock " ]
       else if bool_decide (selector = "#productDescription p") then
         [ Sample.tag "A quiet wireless mouse with three buttons and a scroll wheel." ]
       else if bool_decide (selector = ".a-price .a-offscreen") then
         [ Sample.tag "19.99" ]
       else if bool_decide (selector = ".a-price-whole") then
         [ Sample.tag "19" ]
       else [] |}.

(** A page body with the same high-resolution image twice. *)
Definition image_body : string :=
  "var data = {" +:+ hires_head +:+ "https://m.media-amazon.com/images/I/71.jpg"
    +:+ String dquote ("," +:+ hires_head
    +:+ "https://m.media-amazon.com/images/I/71.jpg" +:+ String dquote "};").

Definition anchor (href : string) : Tag :=
  {| strings := ["Wireless Mouse"]; attrs := {[ "href" := href ]} |}.

(** A page of search results with two links, one of them with a query
    string, an anchor with an empty [href] and one without [href]. *)
Definition results : Soup :=
  {| select := λ selector,
       if bool_decide (selector = search_result_selector) then
         [ anchor "/Wireless-Mouse/dp/B08N5WRWNW/ref=sr_1_1?keywords=mouse";
           anchor EmptyString;
           Sample.tag "Sponsored";
           anchor "/dp/B123456789" ]
       else [] |}.

End Fixture.

(** ** Export, and the demo of [main] *)

(** [sep.join(l)]. *)
Fixpoint join_with (sep : string) (l : list string) : string :=
  match l with
  | [] => EmptyString
  | [x] => x
  | x :: rest => x +:+ sep +:+ join_with sep rest
  end.

(** A [pandas.DataFrame] built from a list of dictionaries: one row per
    dictionary; the columns are the keys met; a cell whose key the row
    lacks is NaN, here an absent key of the row. *)
Record DataFrame := mkDataFrame {
  columns : gset string;
  rows : list (gmap string Value)
}.

Definition DataFrame_of (products : list (gmap string Value)) : DataFrame :=
  {| columns := ⋃ (dom <$> products); rows := products |}.

(** [df[column] = df[column].apply(f)]: [f] runs over the cells that hold
    a value; NaN cells are passed to the lambdas of the exports, which
    give them back. *)
Definition apply_column (f : Value → Value) (column : string)
    (df : DataFrame) : DataFrame :=
  {| columns := columns df; rows := alter f column <$> rows df |}.

(** [lambda x: sep.join(x) if isinstance(x, list) else x]. *)
Definition flatten (sep : string) (x : Value) : Value :=
  match x with
  | VList l => VStr (join_with sep l)
  | _ => x
  end.

(** The frame after the two [if ... in df.columns] steps of
    [export_to_csv] and [export_to_excel]. *)
Definition flatten_complex_fields (df : DataFrame) : DataFrame :=
  let df :=
    if bool_decide ("images" ∈ columns df)
    then apply_column (flatten ", ") "images" df else df in
  let df :=
    if bool_decide ("features" ∈ columns df)
    then apply_column (flatten " | ") "features" df else df in
  df.

(** The files written so far, by name; opening a file for writing
    replaces what the name held. Failures of the file system are not
    modelled. *)
Abbreviation Files := (gmap string string).

Section Exporting.

(** [datetime.now().strftime('%Y%m%d_%H%M%S')], read in a given world. *)
Variable strftime_now : World → string.
(** [df.to_csv(index=False, encoding='utf-8')]: the text written. *)
Variable to_csv : DataFrame → string.
(** [df.to_excel(writer, sheet_name='Products', index=False)]. *)
Variable to_excel : DataFrame → string.
(** [json.dump(products, f, indent=2, ensure_ascii=False)]. *)
Variable json_dump : list (gmap string Value) → string.

(** [if not filename: filename = f"amazon_products_{...}{ext}"]. *)
Definition filename_or_default (filename : option string) (ext : string)
    (w : World) : string :=
  match filename with
  | Some name =>
      if truthy name then name
      else "amazon_products_" +:+ strftime_now w +:+ ext
  | None => "amazon_products_" +:+ strftime_now w +:+ ext
  end.

Definition export_to_csv (products : list (gmap string Value))
    (filename : option string) (w : World) (fs : Files) : Files :=
  let filename := filename_or_default filename ".csv" w in
  match products with
  | [] => fs
  | _ :: _ =>
      let df := DataFrame_of products in
      let df := flatten_complex_fields df in
      <[filename := to_csv df]> fs
  end.

Definition export_to_json (products : list (gmap string Value))
    (filename : option string) (w : World) (fs : Files) : Files :=
  let filename := filename_or_default filename ".json" w in
  <[filename := json_dump products]> fs.

Definition export_to_excel (products : list (gmap string Value))
    (filename : option string) (w : World) (fs : Files) : Files :=
  let filename := filename_or_default filename ".xlsx" w in
  match products with
  | [] => fs
  | _ :: _ =>
      let df := DataFrame_of products in
      let df := flatten_complex_fields df in
      <[filename := to_excel df]> fs
  end.

Variable entropy : nat → nat.
Variable now_isoformat : World → string.
Variable BeautifulSoup : string → Outcome Soup.
Variable urljoin : string → string → string.
Variable network : Session.

(** [main()], with the line read by [input] as [typed]. What it prints
    is left out, like the log; an exception raised inside the [try] is
    caught by [except Exception], which prints it and writes nothing. *)
Definition main (typed : string) (w : World) (fs : Files) : World * Files :=
  match __init__ network (2, 4) 3 with
  | Raised _ => (w, fs)
  | Returned scraper =>
      let keyword := strip typed in
      let keyword :=
        if truthy keyword then keyword else "wireless headphones" in
      let '(found, w) :=
        search_products entropy BeautifulSoup urljoin scraper keyword 1 w in
      match found with
      | Raised _ => (w, fs)
      | Returned product_urls =>
          match product_urls with
          | [] => (w, fs)
          | _ :: _ =>
              let product_urls := take 5 product_urls in
              let '(scraped, w) :=
                scrape_multiple_products entropy now_isoformat BeautifulSoup
                  scraper product_urls w in
              match scraped with
              | Raised _ => (w, fs)
              | Returned products =>
                  match products with
                  | [] => (w, fs)
                  | _ :: _ =>
                      let fs := export_to_csv products None w fs in
                      let fs := export_to_json products None w fs in
                      (w, fs)
                  end
              end
          end
      end
  end.

End Exporting.

(** A record whose only list values sit under [images] and [features]. *)
Definition lists_only_in_complex_fields (rec : gmap string Value) : Prop :=
  ∀ k l, rec !! k = Some (VList l) → k = "images" ∨ k = "features".

(** An event [main] may leave: a GET of the first search page of the
    keyword or of one of the first five links found, or a sleep between 2
    and 4 seconds. *)
Definition demo_event (keyword : string) (links : list string) (e : Event)
  : Prop :=
  match e with
  | EvGet u _ => u = search_url keyword 1 ∨ u ∈ take 5 links
  | EvSleep lo hi => (lo, hi) = (2, 4)
  end.

(** * Facts about Python strings *)

Section StringFacts.

(** [String.append] is sealed against [simpl]; its two equations. *)
Lemma append_nil_l (s : string) : EmptyString +:+ s = s.
Proof. reflexivity. Qed.

Lemma append_cons (c : ascii) (a b : string) :
  String c a +:+ b = String c (a +:+ b).
Proof. reflexivity. Qed.

Lemma append_empty_r (s : string) : s +:+ EmptyString = s.
Proof.
  induction s as [|c s IH]; [done|]. by rewrite append_cons, IH.
Qed.

Lemma append_assoc (a b c : string) : (a +:+ b) +:+ c = a +:+ b +:+ c.
Proof.
  induction a as [|x a IH]; [done|]. by rewrite !append_cons, IH.
Qed.

Lemma length_append (a b : string) :
  String.length (a +:+ b) = (String.length a + String.length b)%nat.
Proof.
  induction a as [|x a IH]; [done|]. rewrite append_cons. simpl. by rewrite IH.
Qed.

Lemma lower_append (a b : string) : lower (a +:+ b) = lower a +:+ lower b.
Proof.
  induction a as [|x a IH]; [done|].
  rewrite append_cons. simpl. by rewrite IH, append_cons.
Qed.

Lemma lower_length (s : string) : String.length (lower s) = String.length s.
Proof. induction s as [|c s IH]; simpl; [done | by rewrite IH]. Qed.

(** A split of the lower-cased string is a split of the string. *)
Lemma lower_split (s a b : string) :
  lower s = a +:+ b →
  ∃ s1 s2, s = s1 +:+ s2 ∧ lower s1 = a ∧ lower s2 = b.
Proof.
  revert s. induction a as [|x a IH]; intros s H.
  - by exists EmptyString, s.
  - rewrite append_cons in H.
    destruct s as [|c s]; simpl in H; [discriminate|].
    injection H as Hc Hs.
    destruct (IH _ Hs) as (s1 & s2 & -> & H1 & H2).
    exists (String c s1), s2. simpl. by rewrite Hc, H1.
Qed.

Lemma startswith_spec (p s : string) :
  startswith p s = true ↔ ∃ post, s = p +:+ post.
Proof.
  revert s. induction p as [|a p IH]; intros s; simpl.
  - split; [by exists s | done].
  - destruct s as [|b s].
    + split; [done | by intros [post H]].
    + rewrite andb_true_iff, bool_decide_eq_true, IH. split.
      * intros [-> [post ->]]. by exists post.
      * intros [post H]. rewrite append_cons in H.
        injection H as -> ->. eauto.
Qed.

Lemma contains_spec (sub s : string) :
  contains sub s = true ↔ ∃ pre post, s = pre +:+ sub +:+ post.
Proof.
  induction s as [|c s IH].
  - simpl. rewrite orb_false_r, startswith_spec. split.
    + intros [post H]. by exists EmptyString, post.
    + intros ([|x pre] & post & H); [eauto | discriminate].
  - cbn [contains]. rewrite orb_true_iff, startswith_spec, IH. split.
    + intros [[post H] | (pre & post & H)].
      * by exists EmptyString, post.
      * exists (String c pre), post. by rewrite append_cons, H.
    + intros ([|x pre] & post & H).
      * left. eauto.
      * right. rewrite append_cons in H. injection H as -> ->. eauto.
Qed.

(** The code's test, [marker in body.lower()], is the case-insensitive
    occurrence of a lower-case marker. *)
Lemma contains_lower_spec (marker body : string) :
  lower marker = marker →
  contains marker (lower body) = true ↔ occurs_ignoring_case marker body.
Proof.
  intros Hm. rewrite contains_spec. unfold occurs_ignoring_case. split.
  - intros (pre' & post' & H).
    apply lower_split in H as (pre & rest & -> & _ & H).
    apply lower_split in H as (mid & post & -> & Hmid & _).
    exists pre, mid, post. by rewrite Hm.
  - intros (pre & mid & post & -> & H).
    exists (lower pre), (lower post).
    by rewrite !lower_append, H, Hm.
Qed.

End StringFacts.

(** * The fetch controller *)

Section FetchFacts.

Variable entropy : nat → nat.

(** When the loop hands out a response, that response is the session's
    answer to the last GET issued, a 200 that the anti-bot test let
    through. *)
Lemma attempt_loop_Some self url todo w r w' :
  attempt_loop entropy self url todo w = (Some r, w') →
  status_code r = 200 ∧ blocked r = false
  ∧ ∃ headers,
      session self (pred (calls w')) url headers = Returned r
      ∧ last (trace w') = Some (EvGet url headers).
Proof.
  revert w. induction todo as [|attempt todo IH]; intros w; simpl.
  - discriminate.
  - destruct (session self (calls w) url _) as [response|exn] eqn:Hget.
    + case_bool_decide as Hst.
      * destruct (blocked response) eqn:Hb.
        -- apply IH.
        -- intros [= <- <-]. simpl. repeat split; [done..|].
           eexists. split; [exact Hget|]. by rewrite last_snoc.
      * apply IH.
    + apply IH.
Qed.

Lemma blocked_false_spec response :
  blocked response = false ↔
  ¬ occurs_ignoring_case "robot" (text response)
  ∧ ¬ occurs_ignoring_case "captcha" (text response).
Proof.
  unfold blocked. rewrite orb_false_iff.
  rewrite <- !(contains_lower_spec _ (text response)) by reflexivity.
  by rewrite !not_true_iff_false.
Qed.

(** C2. A response that [_make_request] returns is a 200 whose text
    holds neither marker, in any letter case; it is the session's answer
    to the last request made. *)
Theorem make_request_only_clean_200 self url w r w' :
  _make_request entropy self url w = (Some r, w') →
  status_code r = 200
  ∧ ¬ occurs_ignoring_case "robot" (text r)
  ∧ ¬ occurs_ignoring_case "captcha" (text r)
  ∧ ∃ headers, session self (pred (calls w')) url headers = Returned r.
Proof.
  unfold _make_request. intros H.
  apply attempt_loop_Some in H as (Hst & Hb & headers & Hget & _).
  apply blocked_false_spec in Hb as [Hr Hc]. eauto 6.
Qed.

End FetchFacts.

Section RetryFacts.

Variable entropy : nat → nat.

(** Against a session that never answers 200, the loop runs every
    attempt, sleeps after each one but the last of [range(max_retries)],
    and comes out with [None]. *)
Lemma attempt_loop_never_200 self url todo w :
  never_200 (session self) →
  ∃ w' tr,
    attempt_loop entropy self url todo w = (None, w')
    ∧ trace w' = trace w ++ tr
    ∧ shape tr = concat (failed_attempt_shape self <$> todo).
Proof.
  intros Hs. revert w.
  induction todo as [|attempt todo IH]; intros w.
  - exists w, []. by rewrite app_nil_r.
  - simpl.
    match goal with |- context [session self ?n ?u ?h] =>
      pose proof (Hs n u h) as Hans;
      destruct (session self n u h) as [response|exn] end.
    all: try rewrite bool_decide_eq_false_2 by done.
    all: unfold failed_attempt_shape at 1; case_bool_decide.
    all: match goal with |- context [attempt_loop _ _ _ _ ?w1] =>
           destruct (IH w1) as (w' & tr & -> & Ht & Hsh) end.
    all: simpl in Ht; rewrite <- app_assoc in Ht; try rewrite <- app_assoc in Ht.
    all: eexists w', _; (split; [done|]); (split; [exact Ht|]).
    all: simpl; by rewrite Hsh.
Qed.

End RetryFacts.

Section RetryClaims.

Variable entropy : nat → nat.

Lemma attempts_in_shape tr :
  attempts_in tr = length (filter (λ b, b = true) (shape tr)).
Proof.
  unfold attempts_in, shape.
  induction tr as [|e tr IH]; [done|].
  rewrite fmap_cons, !filter_cons.
  destruct e; simpl; [by rewrite IH | exact IH].
Qed.

(** C4. With [max_retries = 3] and a session that answers 503 to every
    request, [_make_request] issues three GETs with a sleep between
    them, none after the third, and returns [None]. *)
Theorem always_503_three_attempts self url w :
  max_retries self = 3 →
  (∀ n u h, ∃ r, session self n u h = Returned r ∧ status_code r = 503) →
  ∃ w' tr,
    _make_request entropy self url w = (None, w')
    ∧ trace w' = trace w ++ tr
    ∧ shape tr = [true; false; true; false; true]
    ∧ attempts_in tr = 3%nat.
Proof.
  intros Hmax H503.
  assert (never_200 (session self)) as Hnever.
  { intros n u h. destruct (H503 n u h) as (r & -> & Hr). lia. }
  destruct (attempt_loop_never_200 entropy self url
              (range (max_retries self)) w Hnever)
    as (w' & tr & Hrun & Htr & Hsh).
  exists w', tr. split; [exact Hrun|]. split; [exact Htr|].
  assert (shape tr = [true; false; true; false; true]) as Hshape.
  { rewrite Hsh. unfold failed_attempt_shape. rewrite Hmax. reflexivity. }
  split; [exact Hshape|].
  by rewrite attempts_in_shape, Hshape.
Qed.

(** C7, as the code has it. A non-positive retry count is accepted:
    construction returns a scraper, and its [_make_request] issues no
    request at all and returns [None]. *)
Theorem init_accepts_non_positive_retries network delay_range retries :
  retries ≤ 0 →
  ∃ self,
    __init__ network delay_range retries = Returned self
    ∧ max_retries self = retries
    ∧ ∀ url w, _make_request entropy self url w = (None, w).
Proof.
  intros Hle. eexists. split; [reflexivity|]. split; [reflexivity|].
  intros url w. unfold _make_request, range. simpl.
  assert (seqZ 0 retries = []) as -> by (apply seqZ_nil; lia).
  reflexivity.
Qed.

End RetryClaims.

Lemma always_503_three_attempts_witness :
  ∃ w' tr,
    _make_request Mock.entropy
      (Mock.scraper 3 (Mock.always (Returned (Mock.response 503 "Service Unavailable"))))
      Mock.product_url Mock.fresh = (None, w')
    ∧ trace w' = trace Mock.fresh ++ tr
    ∧ shape tr = [true; false; true; false; true]
    ∧ attempts_in tr = 3%nat.
Proof.
  apply (always_503_three_attempts Mock.entropy
           (Mock.scraper 3 (Mock.always (Returned (Mock.response 503 "Service Unavailable"))))
           Mock.product_url Mock.fresh).
  - reflexivity.
  - intros n u h. eexists. split; reflexivity.
Defined.

Lemma make_request_only_clean_200_witness :
  let r := Mock.response 200 "<html>Wireless Mouse</html>" in
  status_code r = 200
  ∧ ¬ occurs_ignoring_case "robot" (text r)
  ∧ ¬ occurs_ignoring_case "captcha" (text r)
  ∧ ∃ headers,
      Mock.script [Returned (Mock.response 200 "Are you a Robot?"); Returned r]
        1%nat Mock.product_url headers = Returned r.
Proof.
  apply (make_request_only_clean_200 Mock.entropy
           (Mock.scraper 3
              (Mock.script [Returned (Mock.response 200 "Are you a Robot?");
                            Returned (Mock.response 200 "<html>Wireless Mouse</html>")]))
           Mock.product_url Mock.fresh
           (Mock.response 200 "<html>Wireless Mouse</html>")
           {| calls := 2; draws := 3;
              trace := [ EvGet Mock.product_url (_get_headers Mock.entropy (Mock.scraper 3 (Mock.always (Raised ""))) Mock.fresh).1;
                         EvSleep 1 3;
                         EvGet Mock.product_url (_get_headers Mock.entropy (Mock.scraper 3 (Mock.always (Raised ""))) (mkWorld 0 2 [])).1 ] |}).
  vm_compute. reflexivity.
Defined.

(** C5, at a failing input. With the default three attempts and a session
    that answers every request with a CAPTCHA page, each attempt is
    followed by a sleep, the third and last one too, whereas the trace of
    three plain failures (C4) ends on the third GET. *)
Theorem blocked_final_attempt_is_followed_by_a_sleep :
  let '(r, w) :=
    _make_request Mock.entropy
      (Mock.scraper 3 (Mock.always (Returned (Mock.response 200 "Enter the CAPTCHA"))))
      Mock.product_url Mock.fresh in
  r = None
  ∧ shape (trace w) = [true; false; true; false; true; false]
  ∧ last (trace w) = Some (EvSleep 1 3).
Proof. vm_compute. done. Qed.

(** C6, at a failing input. With one attempt per fetch and a session that
    answers 503, a walk over two pages issues two GETs and never sleeps;
    the same walk over clean pages sleeps once after each page. *)
Theorem failed_page_is_not_followed_by_a_delay :
  (let '(urls, w) :=
     search_products Mock.entropy (Mock.parsed Mock.no_match) Mock.urljoin
       (Mock.scraper 1 (Mock.always (Returned (Mock.response 503 "Service Unavailable"))))
       "laptop" 2 Mock.fresh in
   urls = Returned []
   ∧ shape (trace w) = [true; true] ∧ delays_in (trace w) = 0%nat)
  ∧
  (let '(urls, w) :=
     search_products Mock.entropy (Mock.parsed Mock.no_match) Mock.urljoin
       (Mock.scraper 1 (Mock.always (Returned (Mock.response 200 "<html></html>"))))
       "laptop" 2 Mock.fresh in
   urls = Returned []
   ∧ shape (trace w) = [true; false; true; false]
   ∧ delays_in (trace w) = 2%nat).
Proof. split; vm_compute; done. Qed.

(** C7 fails on the code: with [max_retries = 0] construction returns a
    scraper, and that scraper fetches nothing. *)
Lemma zero_retries_is_constructed :
  ¬ (∃ exn, __init__ (Mock.always (Raised "unreachable")) (1, 3) 0 = Raised exn)
  ∧ ∃ self,
      __init__ (Mock.always (Raised "unreachable")) (1, 3) 0 = Returned self
      ∧ _make_request Mock.entropy self Mock.product_url Mock.fresh
        = (None, Mock.fresh).
Proof.
  split.
  - intros [exn H]. discriminate H.
  - eexists. split; reflexivity.
Qed.

Lemma init_accepts_non_positive_retries_witness :
  ∃ self,
    __init__ (Mock.always (Raised "unreachable")) (1, 3) 0 = Returned self
    ∧ max_retries self = 0
    ∧ ∀ url w, _make_request Mock.entropy self url w = (None, w).
Proof.
  apply (init_accepts_non_positive_retries Mock.entropy
           (Mock.always (Raised "unreachable")) (1, 3) 0).
  lia.
Defined.

(** * Identifier extraction *)

Section AsinFacts.

Lemma append_eq_length_inv (a a' b b' : string) :
  a +:+ b = a' +:+ b' → String.length a = String.length a' →
  a = a' ∧ b = b'.
Proof.
  revert a'. induction a as [|x a IH]; intros [|x' a'] H Hlen;
    try discriminate Hlen.
  - done.
  - rewrite !append_cons in H. injection H as -> H.
    injection Hlen as Hlen. destruct (IH _ H Hlen) as [-> ->]. done.
Qed.

Lemma after_prefix_spec (p s rest : string) :
  after_prefix p s = Some rest ↔ s = p +:+ rest.
Proof.
  revert s. induction p as [|a p IH]; intros s; simpl.
  - rewrite append_nil_l. split; [by intros [= ->] | by intros ->].
  - rewrite append_cons. destruct s as [|b s]; [done|].
    case_bool_decide as Hab.
    + subst b. rewrite IH. split; [by intros -> | by intros [= ->]].
    + split; [done | intros [= ? ?]; congruence].
Qed.

Lemma take_exact_spec (cls : ascii → bool) (n : nat) (s a b : string) :
  take_exact cls n s = Some (a, b) ↔
  s = a +:+ b ∧ String.length a = n ∧ all_chars cls a = true.
Proof.
  revert s a b. induction n as [|n IH]; intros s a b; simpl.
  - split.
    + by intros [= <- <-].
    + intros (-> & Hlen & _). by destruct a.
  - destruct s as [|c s].
    + split; [done|]. intros (H & Hlen & _). by destruct a.
    + destruct (cls c) eqn:Hc.
      * destruct (take_exact cls n s) as [[a0 b0]|] eqn:Ht.
        -- apply IH in Ht as (-> & Hlen & Hall). split.
           ++ intros [= <- <-]. simpl. by rewrite Hc, Hlen.
           ++ intros (H & Hl & Ha). destruct a as [|x a]; [done|].
              rewrite append_cons in H. injection H as <- H.
              injection Hl as Hl.
              destruct (append_eq_length_inv _ _ _ _ H) as [-> ->];
                [congruence | done].
        -- split; [done|]. intros (H & Hl & Ha).
           destruct a as [|x a]; [done|].
           rewrite append_cons in H. injection H as <- H.
           injection Hl as Hl. simpl in Ha. apply andb_true_iff in Ha as [_ Ha].
           assert (take_exact cls n s = Some (a, b)) as Hs
             by (apply IH; done).
           congruence.
      * split; [done|]. intros (H & Hl & Ha).
        destruct a as [|x a]; [done|].
        rewrite append_cons in H. injection H as <- H.
        simpl in Ha. by rewrite Hc in Ha.
Qed.

Lemma match_asin_spec (s tok : string) :
  match_asin s = Some tok ↔ ∃ post, dp_token_at asin_char s EmptyString tok post.
Proof.
  unfold match_asin, dp_token_at. split.
  - destruct (after_prefix "/dp/" s) as [rest|] eqn:Hp; [|done].
    apply after_prefix_spec in Hp as ->.
    destruct (take_exact asin_char 10 rest) as [[a b]|] eqn:Ht; [|done].
    apply take_exact_spec in Ht as (-> & Hl & Ha).
    intros [= <-]. by exists b.
  - intros (post & H & Hl & Ha). rewrite append_nil_l in H.
    apply after_prefix_spec in H as ->.
    assert (take_exact asin_char 10 (tok +:+ post) = Some (tok, post)) as ->
      by (by apply take_exact_spec).
    done.
Qed.

(** A hit of [search_asin] is the leftmost occurrence of the pattern. *)
Lemma search_asin_Some (s tok : string) :
  search_asin s = Some tok →
  ∃ pre post,
    dp_token_at asin_char s pre tok post
    ∧ ∀ pre' tok' post',
        dp_token_at asin_char s pre' tok' post' →
        (String.length pre ≤ String.length pre')%nat.
Proof.
  induction s as [|c s IH].
  - simpl. done.
  - cbn [search_asin].
    destruct (match_asin (String c s)) as [t|] eqn:Hm.
    + intros [= ->]. apply match_asin_spec in Hm as [post Hm].
      exists EmptyString, post. split; [done|]. intros. simpl. lia.
    + intros H. destruct (IH H) as (pre & post & (Hs & Hl & Ha) & Hleft).
      exists (String c pre), post. split.
      * split; [|done]. by rewrite append_cons, <- Hs.
      * intros [|x pre'] tok' post' (Hs' & Hl' & Ha').
        -- assert (match_asin (String c s) = Some tok') as Hm'
             by (apply match_asin_spec; by exists post').
           congruence.
        -- rewrite append_cons in Hs'. injection Hs' as <- Hs'.
           simpl. apply le_n_S. by apply (Hleft pre' tok' post').
Qed.

Lemma search_asin_None (s : string) :
  search_asin s = None →
  ∀ pre tok post, ¬ dp_token_at asin_char s pre tok post.
Proof.
  induction s as [|c s IH]; cbn [search_asin].
  - destruct (match_asin EmptyString) eqn:Hm; [done|].
    intros _ [|x pre] tok post (H & Hl & Ha); [|done].
    assert (match_asin EmptyString = Some tok) as Hm'
      by (apply match_asin_spec; by exists post).
    congruence.
  - destruct (match_asin (String c s)) eqn:Hm; [done|].
    intros H [|x pre] tok post (Hs & Hl & Ha).
    + assert (match_asin (String c s) = Some tok) as Hm'
        by (apply match_asin_spec; by exists post).
      congruence.
    + rewrite append_cons in Hs. injection Hs as <- Hs.
      by apply (IH H pre tok post).
Qed.

(** C3, as the code has it. When the URL holds [/dp/] followed by ten
    characters that are upper-case letters or digits, extraction returns
    the ten characters of the leftmost such place, which are the given
    token when the given place is the leftmost; when the URL holds no
    such place, extraction returns [None]. *)
Theorem asin_extraction (url : string) :
  (∀ pre tok post,
     dp_token_at asin_char url pre tok post →
     ∃ pre0 tok0 post0,
       search_asin url = Some tok0
       ∧ dp_token_at asin_char url pre0 tok0 post0
       ∧ (∀ pre' tok' post',
            dp_token_at asin_char url pre' tok' post' →
            (String.length pre0 ≤ String.length pre')%nat)
       ∧ (String.length pre0 = String.length pre → tok0 = tok))
  ∧ ((¬ ∃ pre tok post, dp_token_at asin_char url pre tok post) →
     search_asin url = None).
Proof.
  split.
  - intros pre tok post Hd.
    destruct (search_asin url) as [tok0|] eqn:Hs.
    + apply search_asin_Some in Hs as (pre0 & post0 & Hd0 & Hleft0).
      exists pre0, tok0, post0. repeat split; try done; try apply Hd0.
      intros Hlen.
      destruct Hd as (Hu & Hl & _), Hd0 as (Hu0 & Hl0 & _).
      rewrite Hu in Hu0.
      apply append_eq_length_inv in Hu0 as [_ Hu0]; [|lia].
      apply (String.app_inj "/dp/") in Hu0.
      apply append_eq_length_inv in Hu0 as [-> _]; [done | lia].
    + exfalso. by apply (search_asin_None _ Hs pre tok post).
  - intros Hno. destruct (search_asin url) as [tok|] eqn:Hs; [|done].
    exfalso. apply Hno.
    apply search_asin_Some in Hs as (pre & post & Hd & _). eauto.
Qed.

End AsinFacts.

(** C3 fails on the code: a lower-case token is alphanumeric and follows
    [/dp/], and extraction does not return it. *)
Lemma lower_case_token_is_not_extracted :
  ¬ (∀ url pre tok post,
       dp_token_at is_alnum url pre tok post → search_asin url = Some tok).
Proof.
  intros H.
  specialize (H "https://www.amazon.com/dp/b08n5wrwnw"
                "https://www.amazon.com" "b08n5wrwnw" EmptyString).
  assert (search_asin "https://www.amazon.com/dp/b08n5wrwnw" = None) as Hn
    by reflexivity.
  rewrite Hn in H. discriminate H. done.
Qed.

Lemma asin_extraction_witness :
  (∃ pre0 tok0 post0,
     search_asin "https://www.amazon.com/Some-Product-Name/dp/B123456789/ref=sr_1_1"
       = Some tok0
     ∧ dp_token_at asin_char
         "https://www.amazon.com/Some-Product-Name/dp/B123456789/ref=sr_1_1"
         pre0 tok0 post0
     ∧ (∀ pre' tok' post',
          dp_token_at asin_char
            "https://www.amazon.com/Some-Product-Name/dp/B123456789/ref=sr_1_1"
            pre' tok' post' →
          (String.length pre0 ≤ String.length pre')%nat)
     ∧ (String.length pre0
          = String.length "https://www.amazon.com/Some-Product-Name" →
        tok0 = "B123456789"))
  ∧ search_asin "https://www.amazon.com/s?k=laptop" = None.
Proof.
  split.
  - apply (proj1 (asin_extraction
       "https://www.amazon.com/Some-Product-Name/dp/B123456789/ref=sr_1_1")
       "https://www.amazon.com/Some-Product-Name" "B123456789" "/ref=sr_1_1").
    repeat split.
  - apply (proj2 (asin_extraction "https://www.amazon.com/s?k=laptop")).
    intros (pre & tok & post & Hd).
    by apply (search_asin_None "https://www.amazon.com/s?k=laptop" eq_refl
                pre tok post).
Defined.

(** * White space and the extractors *)

Section StripFacts.

Lemma digit_not_space c : is_digit c = true → is_space c = false.
Proof. destruct c as [[] [] [] [] [] [] [] []]; vm_compute; done. Qed.

Lemma asin_char_not_space c : asin_char c = true → is_space c = false.
Proof. destruct c as [[] [] [] [] [] [] [] []]; vm_compute; done. Qed.

Lemma lower_r_not_space c : lower_char c = "r"%char → is_space c = false.
Proof. destruct c as [[] [] [] [] [] [] [] []]; vm_compute; done. Qed.

Lemma starts_clean_strip s : starts_clean s → strip s ≠ EmptyString.
Proof.
  destruct s as [|c s]; [done|]. simpl. intros Hc.
  unfold strip. simpl. rewrite Hc. simpl.
  destruct (rstrip s); [by rewrite Hc | done].
Qed.

Lemma lstrip_clean s : lstrip s = EmptyString ∨ starts_clean (lstrip s).
Proof.
  induction s as [|c s IH]; simpl; [by left|].
  destruct (is_space c) eqn:Hc; [done|]. right. exact Hc.
Qed.

Lemma rstrip_clean s : starts_clean s → starts_clean (rstrip s).
Proof.
  destruct s as [|c s]; [done|]. simpl. intros Hc.
  destruct (rstrip s); [by rewrite Hc | done].
Qed.

(** A stripped string is empty or starts clean. *)
Lemma strip_truthy_clean s : truthy (strip s) = true → starts_clean (strip s).
Proof.
  unfold strip. destruct (lstrip_clean s) as [-> | H]; [done|].
  intros _. by apply rstrip_clean.
Qed.

Lemma lstrip_empty s : lstrip s = EmptyString → all_chars is_space s = true.
Proof.
  induction s as [|c s IH]; simpl; [done|].
  destruct (is_space c); [exact IH | done].
Qed.

Lemma rstrip_empty s : rstrip s = EmptyString → all_chars is_space s = true.
Proof.
  induction s as [|c s IH]; simpl; [done|].
  destruct (rstrip s); [|done].
  destruct (is_space c); [intros _; by apply IH | done].
Qed.

Lemma strip_empty s : strip s = EmptyString → all_chars is_space s = true.
Proof.
  unfold strip. intros H. apply lstrip_empty.
  destruct (lstrip_clean s) as [He | Hc]; [done|].
  apply rstrip_clean in Hc. by rewrite H in Hc.
Qed.

Lemma join_cons x l : join (x :: l) = x +:+ join l.
Proof. reflexivity. Qed.

Lemma all_chars_append p a b :
  all_chars p (a +:+ b) = all_chars p a && all_chars p b.
Proof.
  induction a as [|c a IH]; [done|].
  rewrite append_cons. simpl. by rewrite IH, andb_assoc.
Qed.

(** The text [get_text(strip=True)] returns is empty or starts clean. *)
Lemma get_text_strip_clean t :
  truthy (get_text_strip t) = true → starts_clean (get_text_strip t).
Proof.
  unfold get_text_strip.
  induction (strings t) as [|x l IH]; [done|].
  rewrite fmap_cons, filter_cons. case_decide as Hx; [|exact IH].
  intros _. rewrite join_cons.
  apply strip_truthy_clean in Hx.
  destruct (strip x); [done|]. by rewrite append_cons.
Qed.

(** A text node with a character that is not white space survives. *)
Lemma get_text_strip_truthy t :
  all_chars is_space (get_text t) = false → truthy (get_text_strip t) = true.
Proof.
  unfold get_text, get_text_strip.
  induction (strings t) as [|x l IH]; [done|].
  rewrite join_cons, all_chars_append, fmap_cons, filter_cons.
  case_decide as Hx.
  - intros _. rewrite join_cons.
    destruct (strip x); [done|]. by rewrite append_cons.
  - assert (all_chars is_space x = true) as ->.
    { apply strip_empty. by destruct (strip x). }
    exact IH.
Qed.

Lemma lower_has_r_not_all_space s pre post :
  lower s = pre +:+ "rating" +:+ post → all_chars is_space s = false.
Proof.
  intros H. apply lower_split in H as (s1 & s2 & -> & _ & H).
  rewrite all_chars_append.
  destruct s2 as [|c s2]; [discriminate H|].
  simpl in H. rewrite append_cons in H. injection H as Hc _.
  simpl. rewrite (lower_r_not_space _ Hc). simpl. apply andb_false_r.
Qed.

Lemma for_selectors_Some body selectors v :
  for_selectors body selectors = Some v →
  ∃ selector, selector ∈ selectors ∧ body selector = Some v.
Proof.
  induction selectors as [|x l IH]; simpl; [done|].
  destruct (body x) as [v'|] eqn:Hb.
  - intros [= ->]. exists x. split; [left | done].
  - intros H. destruct (IH H) as (sel & Hin & Hsel).
    exists sel. split; [by right | done].
Qed.

Lemma extract_price_clean soup v :
  _extract_price soup = Some v → starts_clean v.
Proof.
  intros (sel & _ & H)%for_selectors_Some.
  destruct (select_one soup sel) as [e|]; [|done]. simpl in H.
  destruct (truthy (get_text_strip e)) eqn:Ht; simpl in H; [|done].
  destruct (contains "$" (get_text_strip e)); [|done].
  injection H as <-. by apply get_text_strip_clean.
Qed.

Lemma extract_availability_clean soup v :
  _extract_availability soup = Some v → starts_clean v.
Proof.
  intros (sel & _ & H)%for_selectors_Some.
  destruct (select_one soup sel) as [e|]; [|done]. simpl in H.
  destruct (truthy (get_text_strip e)) eqn:Ht; simpl in H; [|done].
  case_bool_decide; [|done].
  injection H as <-. by apply get_text_strip_clean.
Qed.

Lemma extract_description_clean soup v :
  _extract_description soup = Some v → starts_clean v.
Proof.
  intros (sel & _ & H)%for_selectors_Some.
  destruct (select_one soup sel) as [e|]; [|done]. simpl in H.
  destruct (truthy (get_text_strip e)) eqn:Ht; simpl in H; [|done].
  case_bool_decide; [|done].
  injection H as <-. by apply get_text_strip_clean.
Qed.

Lemma extract_rating_count_clean soup v :
  _extract_rating_count soup = Some v → starts_clean v.
Proof.
  intros (sel & _ & H)%for_selectors_Some.
  destruct (select_one soup sel) as [e|]; [|done].
  destruct (contains "rating" (lower (get_text e))) eqn:Hc; [|done].
  injection H as <-.
  apply contains_spec in Hc as (pre & post & Hc).
  apply get_text_strip_clean, get_text_strip_truthy.
  by apply (lower_has_r_not_all_space _ pre post).
Qed.

Lemma span_head p s c a b : span p s = (String c a, b) → p c = true.
Proof.
  destruct s as [|x s]; simpl; [done|].
  destruct (p x) eqn:Hx; [|done].
  destruct (span p s). by intros [= <- _ _].
Qed.

Lemma match_number_clean s g : match_number s = Some g → starts_clean g.
Proof.
  unfold match_number.
  destruct (span is_digit s) as [[|d ds] rest] eqn:Hsp; [done|].
  apply span_head, digit_not_space in Hsp.
  destruct rest as [|c rest]; [by intros [= <-]|].
  destruct (span is_digit rest) as [frac ?].
  destruct (decide (c = "."%char)) as [->|Hne].
  - intros [= <-]. by rewrite append_cons.
  - assert (∀ X : option string,
              match c with
              | "."%char => X
              | _ => Some (String d ds)
              end = Some g → X = Some g ∨ String d ds = g) as Hcase.
    { intros X. destruct c as [[] [] [] [] [] [] [] []]; naive_solver. }
    intros H. apply Hcase in H as [H | <-]; [|done].
    injection H as <-. by rewrite append_cons.
Qed.

Lemma search_number_clean s g : search_number s = Some g → starts_clean g.
Proof.
  induction s as [|c s IH]; cbn [search_number].
  - destruct (match_number EmptyString) eqn:Hm; [|done].
    intros [= <-]. by apply match_number_clean in Hm.
  - destruct (match_number (String c s)) eqn:Hm.
    + intros [= <-]. by apply match_number_clean in Hm.
    + exact IH.
Qed.

Lemma extract_rating_clean soup v :
  _extract_rating soup = Some v → starts_clean v.
Proof.
  unfold _extract_rating.
  destruct (select_one soup "span.a-icon-alt"); [|done].
  apply search_number_clean.
Qed.

Lemma search_asin_clean url tok : search_asin url = Some tok → starts_clean tok.
Proof.
  intros (pre & post & (_ & Hl & Ha) & _)%search_asin_Some.
  destruct tok as [|c tok]; [done|].
  simpl in Ha. apply andb_true_iff in Ha as [Hc _].
  by apply asin_char_not_space.
Qed.

End StripFacts.

(** * The record assembler *)

Section RecordFacts.

Variable entropy : nat → nat.
Variable now_isoformat : World → string.
Variable BeautifulSoup : string → Outcome Soup.

Lemma make_request_ok self url w r w' :
  _make_request entropy self url w = (Some r, w') → ok r = true.
Proof.
  intros H. apply attempt_loop_Some in H as (Hst & _).
  unfold ok. rewrite Hst. reflexivity.
Qed.

(** [scrape_product] is the fetch followed, on a response, by the parse
    and, on a document, by the assembly of the record; it does nothing
    more to the world. *)
Lemma scrape_product_unfold self url w :
  scrape_product entropy now_isoformat BeautifulSoup self url w =
  match _make_request entropy self url w with
  | (Some r, w') =>
      match BeautifulSoup (content r) with
      | Returned soup =>
          (Returned
             (Some (without_None (product_data (now_isoformat w') soup url r))),
           w')
      | Raised exn => (Raised exn, w')
      end
  | (None, w') => (Returned None, w')
  end.
Proof.
  unfold scrape_product.
  destruct (_make_request entropy self url w) as [[r|] w1] eqn:Hreq; [|done].
  rewrite (make_request_ok _ _ _ _ _ Hreq). cbn [negb].
  by destruct (BeautifulSoup (content r)).
Qed.

Lemma Returned_Some_inj {A} (x y : A) :
  Returned (Some x) = Returned (Some y) → x = y.
Proof. by intros [= ->]. Qed.

Lemma scrape_product_Some self url w rec w' :
  scrape_product entropy now_isoformat BeautifulSoup self url w
    = (Returned (Some rec), w') →
  ∃ r soup,
    _make_request entropy self url w = (Some r, w')
    ∧ BeautifulSoup (content r) = Returned soup
    ∧ rec = without_None (product_data (now_isoformat w') soup url r).
Proof.
  rewrite scrape_product_unfold.
  destruct (_make_request entropy self url w) as [[r|] w1].
  - destruct (BeautifulSoup (content r)) as [soup|exn] eqn:Hparse; intros H.
    + apply pair_equal_spec in H as [H <-].
      apply Returned_Some_inj in H. subst rec. by exists r, soup.
    + apply pair_equal_spec in H as [H _]. discriminate H.
  - intros H. apply pair_equal_spec in H as [H _]. discriminate H.
Qed.

Lemma lookup_without_None d k v :
  without_None d !! k = Some v ↔ d !! k = Some v ∧ v ≠ VNone.
Proof. unfold without_None. by rewrite map_lookup_filter_Some. Qed.

Ltac lookup_literal :=
  unfold product_data, list_to_map; cbn [foldr]; unfold uncurry;
  cbn [fst snd];
  repeat (rewrite lookup_insert_ne by discriminate);
  apply lookup_insert_eq.

Ltac pick_entry :=
  first [ split; reflexivity | left; split; reflexivity | right; pick_entry ].

(** The eleven entries of the dictionary literal. *)
Lemma product_data_lookup now soup url r k v :
  product_data now soup url r !! k = Some v →
  (k = "asin" ∧ v = of_option (search_asin url))
  ∨ (k = "url" ∧ v = VStr url)
  ∨ (k = "title" ∧ v = of_option (_extract_title soup))
  ∨ (k = "price" ∧ v = of_option (_extract_price soup))
  ∨ (k = "rating" ∧ v = of_option (_extract_rating soup))
  ∨ (k = "rating_count" ∧ v = of_option (_extract_rating_count soup))
  ∨ (k = "availability" ∧ v = of_option (_extract_availability soup))
  ∨ (k = "images" ∧ v = VList (_extract_images soup (text r)))
  ∨ (k = "features" ∧ v = VList (_extract_features soup))
  ∨ (k = "description" ∧ v = of_option (_extract_description soup))
  ∨ (k = "scraped_at" ∧ v = VStr now).
Proof.
  unfold product_data, list_to_map. cbn [foldr]. unfold uncurry. cbn [fst snd].
  intros H.
  repeat (apply lookup_insert_Some in H as [[<- <-] | [_ H]];
          [solve [pick_entry]|]).
  by rewrite lookup_empty in H.
Qed.

Lemma of_option_clean (o : option string) v :
  (∀ s, o = Some s → starts_clean s) →
  v = of_option o → v ≠ VNone → non_empty_value v.
Proof.
  intros Hc -> Hv. destruct o as [s|]; [|done].
  simpl. by apply starts_clean_strip, Hc.
Qed.

(** C1, as the code has it. A record that [scrape_product] returns binds
    no key to [None], and binds [asin], [price], [rating],
    [rating_count], [availability] and [description], when present, to
    a string that is non-empty after trimming; [images] and [features]
    are bound to lists whatever their contents. *)
Theorem scraped_record_has_no_None self url w rec w' :
  scrape_product entropy now_isoformat BeautifulSoup self url w
    = (Returned (Some rec), w') →
  (∀ k, rec !! k ≠ Some VNone)
  ∧ (∀ k v, k ∈ filtered_fields → rec !! k = Some v → non_empty_value v)
  ∧ (∃ images features,
       rec !! "images" = Some (VList images)
       ∧ rec !! "features" = Some (VList features)).
Proof.
  intros (r & soup & _ & _ & ->)%scrape_product_Some. split; [|split].
  - intros k [_ Hk]%lookup_without_None. done.
  - intros k v Hin [Hk Hv]%lookup_without_None.
    apply product_data_lookup in Hk.
    unfold filtered_fields in Hin. rewrite !elem_of_cons in Hin.
    destruct Hk as [[-> E]|[[-> E]|[[-> E]|[[-> E]|[[-> E]|[[-> E]|
                   [[-> E]|[[-> E]|[[-> E]|[[-> E]|[-> E]]]]]]]]]]].
    all: try (exfalso;
              repeat (destruct Hin as [Hin|Hin]; [discriminate Hin|]);
              by apply elem_of_nil in Hin).
    all: eapply of_option_clean; [|exact E|exact Hv]; intros s Hs.
    + by apply (search_asin_clean url).
    + by apply (extract_price_clean soup).
    + by apply (extract_rating_clean soup).
    + by apply (extract_rating_count_clean soup).
    + by apply (extract_availability_clean soup).
    + by apply (extract_description_clean soup).
  - do 2 eexists.
    split; apply lookup_without_None; (split; [lookup_literal | discriminate]).
Qed.

Lemma product_record_has_url now soup url r :
  without_None (product_data now soup url r) !! "url" = Some (VStr url).
Proof. apply lookup_without_None. split; [lookup_literal | discriminate]. Qed.

Lemma lookup_Some_not_empty (k : string) (v : Value)
    (d : gmap string Value) :
  d !! k = Some v → d ≠ ∅.
Proof. intros H ->. by rewrite lookup_empty in H. Qed.


(** C10. A record that [scrape_product] returns binds [url] to the input
    URL, [scraped_at] to a string, and [images] and [features] to lists,
    whatever their contents. *)
Theorem scraped_record_fixed_keys self url w rec w' :
  scrape_product entropy now_isoformat BeautifulSoup self url w
    = (Returned (Some rec), w') →
  rec !! "url" = Some (VStr url)
  ∧ (∃ stamp, rec !! "scraped_at" = Some (VStr stamp))
  ∧ (∃ images, rec !! "images" = Some (VList images))
  ∧ (∃ features, rec !! "features" = Some (VList features)).
Proof.
  intros (r & soup & _ & _ & ->)%scrape_product_Some.
  split; [|split; [|split]]; try eexists.
  all: apply lookup_without_None; (split; [lookup_literal | discriminate]).
Qed.

(** A returned record is never the empty dictionary. *)
Lemma scraped_record_not_empty self url w rec w' :
  scrape_product entropy now_isoformat BeautifulSoup self url w
    = (Returned (Some rec), w') →
  rec ≠ ∅.
Proof.
  intros (r & soup & _ & _ & ->)%scrape_product_Some.
  apply (lookup_Some_not_empty "url" (VStr url)), product_record_has_url.
Qed.

End RecordFacts.

(** * Several products *)

Section IsolationFacts.

Variable entropy : nat → nat.
Variable now_isoformat : World → string.
Variable BeautifulSoup : string → Outcome Soup.

Local Abbreviation scrape_product' := (scrape_product entropy now_isoformat BeautifulSoup).
Local Abbreviation scrape_each' := (scrape_each entropy now_isoformat BeautifulSoup).
Local Abbreviation product_loop' := (product_loop entropy now_isoformat BeautifulSoup).


Lemma scrape_each_cons self url rest w :
  scrape_each' self (url :: rest) w =
  let '(outcome, w1) := scrape_product' self url w in
  let w2 := match rest with [] => w1 | _ :: _ => _delay self w1 end in
  (outcome :: (scrape_each' self rest w2).1, (scrape_each' self rest w2).2).
Proof.
  cbn [scrape_each]. destruct (scrape_product' self url w) as [outcome w1].
  simpl. by destruct (scrape_each' self rest _).
Qed.

(** The loop of [scrape_multiple_products], from the [i]-th URL on, when
    no scrape of the rest raises. *)
Lemma product_loop_spec self len rest i products w :
  len = i + Z.of_nat (length rest) - 1 →
  Forall came_back (scrape_each' self rest w).1 →
  product_loop' self len (zip (seqZ i (Z.of_nat (length rest))) rest) products w
  = (Returned (products ++ omap kept_record (scrape_each' self rest w).1),
     (scrape_each' self rest w).2).
Proof.
  revert i products w.
  induction rest as [|url rest IH]; intros i products w Hlen Hback.
  - simpl. by rewrite app_nil_r.
  - rewrite seqZ_cons by (simpl; lia).
    replace (Z.pred (Z.of_nat (length (url :: rest))))
      with (Z.of_nat (length rest)) by (simpl; lia).
    rewrite scrape_each_cons in Hback |- *.
    cbn [zip zip_with product_loop].
    destruct (scrape_product' self url w) as [outcome w1] eqn:Hscrape.
    cbn zeta in Hback |- *. cbn [fst snd] in Hback |- *.
    apply Forall_cons in Hback as [[scraped ->] Hback].
    assert ((if bool_decide (i < len) then _delay self w1 else w1)
            = match rest with [] => w1 | _ :: _ => _delay self w1 end)
      as ->.
    { destruct rest; simpl in Hlen.
      - rewrite bool_decide_eq_false_2 by lia. done.
      - rewrite bool_decide_eq_true_2 by lia. done. }
    rewrite IH by (first [simpl in Hlen; lia | exact Hback]).
    f_equal. f_equal. cbn [omap kept_record].
    destruct scraped as [d|]; [|done].
    rewrite bool_decide_eq_true_2
      by (by eapply scraped_record_not_empty).
    by rewrite <- app_assoc.
Qed.


End IsolationFacts.

(** * The model on concrete inputs *)

(** C1 fails on the code: on a page where nothing matches, the record
    holds [images] and [features] bound to empty lists. *)
Lemma empty_lists_are_kept :
  ∃ rec w',
    scrape_product Mock.entropy Mock.clock (Mock.parsed Mock.no_match)
      (Mock.scraper 3 (Mock.always (Returned Sample.clean)))
      Mock.product_url Mock.fresh = (Returned (Some rec), w')
    ∧ rec !! "images" = Some (VList [])
    ∧ rec !! "features" = Some (VList [])
    ∧ ¬ (∀ k v, rec !! k = Some v → non_empty_value v).
Proof.
  eexists (without_None
             (product_data (Mock.clock Mock.fresh) Mock.no_match
                Mock.product_url Sample.clean)), _.
  split; [vm_compute; reflexivity|].
  assert (without_None
            (product_data (Mock.clock Mock.fresh) Mock.no_match
               Mock.product_url Sample.clean) !! "images" = Some (VList []))
    as Himages by (vm_compute; reflexivity).
  split; [exact Himages|]. split; [vm_compute; reflexivity|].
  intros H. by apply H in Himages.
Qed.

(** The title is kept as well when its element holds only white space. *)
Example blank_title_is_kept :
  kept_record
    (scrape_product Mock.entropy Mock.clock (Mock.parsed Mock.blank_title)
       (Mock.scraper 3 (Mock.always (Returned Sample.clean)))
       Mock.product_url Mock.fresh).1
  ≫= (λ rec, rec !! "title")
  = Some (VStr EmptyString).
Proof. vm_compute. reflexivity. Qed.

Lemma scraped_record_has_no_None_witness :
  let rec :=
    without_None
      (product_data (Mock.clock Mock.fresh) Sample.page Mock.product_url
         Sample.clean) in
  (∀ k, rec !! k ≠ Some VNone)
  ∧ (∀ k v, k ∈ filtered_fields → rec !! k = Some v → non_empty_value v)
  ∧ (∃ images features,
       rec !! "images" = Some (VList images)
       ∧ rec !! "features" = Some (VList features)).
Proof.
  apply (scraped_record_has_no_None Mock.entropy Mock.clock
           (Mock.parsed Sample.page)
           (Mock.scraper 3 (Mock.always (Returned Sample.clean)))
           Mock.product_url Mock.fresh _
           (_make_request Mock.entropy
              (Mock.scraper 3 (Mock.always (Returned Sample.clean)))
              Mock.product_url Mock.fresh).2).
  vm_compute. reflexivity.
Defined.

Lemma scraped_record_fixed_keys_witness :
  let rec :=
    without_None
      (product_data (Mock.clock Mock.fresh) Mock.no_match Mock.product_url
         Sample.clean) in
  rec !! "url" = Some (VStr Mock.product_url)
  ∧ (∃ stamp, rec !! "scraped_at" = Some (VStr stamp))
  ∧ (∃ images, rec !! "images" = Some (VList images))
  ∧ (∃ features, rec !! "features" = Some (VList features)).
Proof.
  apply (scraped_record_fixed_keys Mock.entropy Mock.clock
           (Mock.parsed Mock.no_match)
           (Mock.scraper 3 (Mock.always (Returned Sample.clean)))
           Mock.product_url Mock.fresh _
           (_make_request Mock.entropy
              (Mock.scraper 3 (Mock.always (Returned Sample.clean)))
              Mock.product_url Mock.fresh).2).
  vm_compute. reflexivity.
Defined.

(** The sample page end to end: title, price and three features are
    found, and no [rating] key exists. *)
Example sample_page_record :
  let rec :=
    without_None
      (product_data (Mock.clock Mock.fresh) Sample.page Mock.product_url
         Sample.clean) in
  rec !! "asin" = Some (VStr "B08N5WRWNW")
  ∧ rec !! "title" = Some (VStr "Wireless Mouse")
  ∧ rec !! "price" = Some (VStr "$19.99")
  ∧ rec !! "features"
    = Some (VList [ "2.4 GHz wireless receiver";
                    "Ergonomic right-handed shape";
                    "Battery lasts twelve months" ])
  ∧ rec !! "rating" = None.
Proof. vm_compute. done. Qed.

(** Three URLs, the second of which fails: two records come back, the
    first and the third, and the run made all three requests. *)
Example second_url_fails :
  let '(products, w) :=
    scrape_multiple_products Mock.entropy Mock.clock (Mock.parsed Sample.page)
      (Mock.scraper 1 Sample.second_fails) Sample.urls Mock.fresh in
  match products with
  | Returned l =>
      (λ rec : gmap string Value, rec !! "url") <$> l
      = [ Some (VStr "https://www.amazon.com/dp/B08N5WRWNW");
          Some (VStr "https://www.amazon.com/dp/B987654321") ]
  | Raised _ => False
  end
  ∧ shape (trace w) = [true; false; true; false; true].
Proof. vm_compute. done. Qed.





(** Retry on a block page: the first answer is a robot check, the second
    is clean; the fetch sleeps once and returns the second answer. *)
Example clean_on_second_attempt :
  let '(r, w) :=
    _make_request Mock.entropy
      (Mock.scraper 3
         (Mock.script [ Returned (Mock.response 200 "Are you a Robot?");
                        Returned Sample.clean ]))
      Mock.product_url Mock.fresh in
  r = Some Sample.clean ∧ shape (trace w) = [true; false; true].
Proof. vm_compute. done. Qed.

(** * More on the fetch controller *)

Section FetchTrace.

Variable entropy : nat → nat.

Lemma get_headers_bundle self w :
  user_agents self ≠ [] →
  ∃ ua, ua ∈ user_agents self
        ∧ _get_headers entropy self w
          = (header_bundle ua,
             {| calls := calls w; draws := S (draws w); trace := trace w |}).
Proof.
  intros Hne.
  exists (nth (entropy (draws w) mod length (user_agents self))%nat
              (user_agents self) EmptyString).
  split; [|reflexivity].
  apply list_elem_of_In, nth_In, Nat.mod_upper_bound.
  by destruct (user_agents self).
Qed.

Lemma attempts_in_cons_get u h tr :
  attempts_in (EvGet u h :: tr) = S (attempts_in tr).
Proof. unfold attempts_in. by rewrite filter_cons_True. Qed.

Lemma attempts_in_cons_sleep lo hi tr :
  attempts_in (EvSleep lo hi :: tr) = attempts_in tr.
Proof. unfold attempts_in. by rewrite filter_cons_False. Qed.

Lemma attempts_in_app tr1 tr2 :
  attempts_in (tr1 ++ tr2) = (attempts_in tr1 + attempts_in tr2)%nat.
Proof. unfold attempts_in. by rewrite filter_app, length_app. Qed.

(** What the loop leaves on the trace, when it runs the tail
    [k, k+1, ..., max_retries - 1] of [range(max_retries)]. *)
Lemma attempt_loop_trace self url n k w res w' :
  user_agents self ≠ [] →
  k + Z.of_nat n = max_retries self →
  attempt_loop entropy self url (seqZ k (Z.of_nat n)) w = (res, w') →
  ∃ tr,
    trace w' = trace w ++ tr
    ∧ calls w' = (calls w + attempts_in tr)%nat
    ∧ (attempts_in tr ≤ n)%nat
    ∧ (res = None → attempts_in tr = n)
    ∧ (is_Some res → last (shape tr) = Some true)
    ∧ alternates true (shape tr) = true
    ∧ Forall (fetch_event self url) tr.
Proof.
  intros Hua. revert k w res w'.
  induction n as [|n IH]; intros k w res w' Hk.
  - simpl. intros [= <- <-]. exists []. rewrite app_nil_r.
    split_and!; try done; try lia; try by intros [? ?].
  - rewrite seqZ_cons by lia.
    replace (Z.pred (Z.of_nat (S n))) with (Z.of_nat n) by lia.
    cbn [attempt_loop].
    destruct (get_headers_bundle self w Hua) as (ua & Hin & ->).
    cbn [session_get calls draws trace].
    set (w1 := {| calls := S (calls w); draws := S (draws w);
                  trace := trace w ++ [EvGet url (header_bundle ua)] |}).
    assert (fetch_event self url (EvGet url (header_bundle ua))) as Hget
      by (split; [done | by exists ua]).
    revert res w'.
    assert (∀ res w',
      attempt_loop entropy self url (seqZ (Z.succ k) (Z.of_nat n))
        (_delay self w1) = (res, w') →
      ∃ tr, trace w' = trace w ++ tr
        ∧ calls w' = (calls w + attempts_in tr)%nat
        ∧ (attempts_in tr ≤ S n)%nat
        ∧ (res = None → attempts_in tr = S n)
        ∧ (is_Some res → last (shape tr) = Some true)
        ∧ alternates true (shape tr) = true
        ∧ Forall (fetch_event self url) tr) as Hdelay.
    { intros res0 w0 Hrun.
      apply IH in Hrun as (tr & Ht & Hc & Hle & Hnone & Hlast & Halt & Hall);
        [|lia].
      exists (EvGet url (header_bundle ua)
              :: EvSleep (delay_range self).1 (delay_range self).2 :: tr).
      simpl in Ht, Hc.
      rewrite attempts_in_cons_get, attempts_in_cons_sleep.
      split_and!.
      - rewrite Ht, <- !app_assoc. done.
      - lia.
      - lia.
      - intros H. rewrite (Hnone H). done.
      - intros H. specialize (Hlast H). simpl.
        destruct (shape tr) as [|b sh] eqn:Hsh; [done|]. exact Hlast.
      - exact Halt.
      - constructor; [done|]. constructor; [|done]. simpl.
        by destruct (delay_range self). }
    assert (∀ res w',
      attempt_loop entropy self url (seqZ (Z.succ k) (Z.of_nat n))
        (if bool_decide (k < max_retries self - 1) then _delay self w1 else w1)
        = (res, w') →
      ∃ tr, trace w' = trace w ++ tr
        ∧ calls w' = (calls w + attempts_in tr)%nat
        ∧ (attempts_in tr ≤ S n)%nat
        ∧ (res = None → attempts_in tr = S n)
        ∧ (is_Some res → last (shape tr) = Some true)
        ∧ alternates true (shape tr) = true
        ∧ Forall (fetch_event self url) tr) as Hfall.
    { intros res0 w0. case_bool_decide as Hlt; [apply Hdelay|].
      assert (n = 0%nat) as -> by lia. simpl. intros [= <- <-].
      exists [EvGet url (header_bundle ua)].
      rewrite attempts_in_cons_get. change (attempts_in []) with 0%nat. simpl.
      split_and!; try done; try lia; try (by intros [? ?]); by constructor. }
    destruct (session self (calls w) url (header_bundle ua)) as [response|exn].
    + destruct (bool_decide (status_code response = 200)); [|apply Hfall].
      destruct (blocked response); [apply Hdelay|].
      intros res w' [= <- <-]. exists [EvGet url (header_bundle ua)].
      rewrite attempts_in_cons_get. change (attempts_in []) with 0%nat. simpl.
      split_and!; try done; try lia; by constructor.
    + apply Hfall.
Qed.

End FetchTrace.

Section FetchExtras.

Variable entropy : nat → nat.

Lemma make_request_trace self url w res w' :
  user_agents self ≠ [] →
  _make_request entropy self url w = (res, w') →
  ∃ tr,
    trace w' = trace w ++ tr
    ∧ calls w' = (calls w + attempts_in tr)%nat
    ∧ (attempts_in tr ≤ Z.to_nat (max_retries self))%nat
    ∧ (res = None → attempts_in tr = Z.to_nat (max_retries self))
    ∧ (is_Some res → last (shape tr) = Some true)
    ∧ alternates true (shape tr) = true
    ∧ Forall (fetch_event self url) tr.
Proof.
  intros Hua. unfold _make_request, range.
  destruct (decide (0 ≤ max_retries self)) as [Hpos|Hneg].
  - replace (max_retries self) with (Z.of_nat (Z.to_nat (max_retries self)))
      at 1 by lia.
    apply attempt_loop_trace; [done | lia].
  - rewrite seqZ_nil by lia. simpl. intros [= <- <-].
    exists []. rewrite app_nil_r.
    replace (Z.to_nat (max_retries self)) with 0%nat by lia.
    split_and!; try done; try by intros [? ?].
Qed.

(** X1. One logical fetch issues at most [max_retries] GETs, and gives up
    only after it has issued all of them. *)
Theorem make_request_attempt_budget self url w res w' :
  user_agents self ≠ [] →
  _make_request entropy self url w = (res, w') →
  ∃ tr,
    trace w' = trace w ++ tr
    ∧ calls w' = (calls w + attempts_in tr)%nat
    ∧ (attempts_in tr ≤ Z.to_nat (max_retries self))%nat
    ∧ (res = None → attempts_in tr = Z.to_nat (max_retries self)).
Proof.
  intros Hua Hrun.
  destruct (make_request_trace _ _ _ _ _ Hua Hrun)
    as (tr & Ht & Hc & Hle & Hnone & _).
  by exists tr.
Qed.

(** X2. Within one fetch GETs and sleeps alternate, starting with a GET:
    two attempts are always separated by exactly one sleep; a fetch that
    returns a response ends on the GET that fetched it. *)
Theorem make_request_alternates self url w res w' :
  user_agents self ≠ [] →
  _make_request entropy self url w = (res, w') →
  ∃ tr,
    trace w' = trace w ++ tr
    ∧ alternates true (shape tr) = true
    ∧ (is_Some res → last (shape tr) = Some true).
Proof.
  intros Hua Hrun.
  destruct (make_request_trace _ _ _ _ _ Hua Hrun)
    as (tr & Ht & _ & _ & _ & Hlast & Halt & _).
  by exists tr.
Qed.

(** X3. Every GET of a fetch goes to the URL asked for, under the fixed
    header bundle with a user agent taken from the pool; every sleep is
    drawn from the configured delay range. *)
Theorem make_request_events self url w res w' :
  user_agents self ≠ [] →
  _make_request entropy self url w = (res, w') →
  ∃ tr, trace w' = trace w ++ tr ∧ Forall (fetch_event self url) tr.
Proof.
  intros Hua Hrun.
  destruct (make_request_trace _ _ _ _ _ Hua Hrun)
    as (tr & Ht & _ & _ & _ & _ & _ & Hall).
  by exists tr.
Qed.

Lemma attempt_loop_first_clean self url r j :
  ∀ n k w,
    (j < n)%nat →
    k + Z.of_nat n = max_retries self →
    (∀ i h, (i < j)%nat → retried (session self (calls w + i)%nat url h)) →
    (∀ h, session self (calls w + j)%nat url h = Returned r) →
    clean r →
    ∃ w' tr,
      attempt_loop entropy self url (seqZ k (Z.of_nat n)) w = (Some r, w')
      ∧ trace w' = trace w ++ tr
      ∧ shape tr = concat (replicate j [true; false]) ++ [true].
Proof.
  induction j as [|j IH]; intros n k w Hn Hk Hretry Hclean [Hst Hb].
  - destruct n as [|n]; [lia|].
    rewrite seqZ_cons by lia. simpl.
    rewrite Nat.add_0_r in Hclean. rewrite Hclean.
    rewrite bool_decide_eq_true_2 by done. rewrite Hb.
    eexists _, [_]. split; [reflexivity|]. split; reflexivity.
  - destruct n as [|n]; [lia|].
    rewrite seqZ_cons by lia.
    replace (Z.pred (Z.of_nat (S n))) with (Z.of_nat n) by lia.
    simpl.
    match goal with |- context [session self (calls w) url ?h] =>
      pose proof (Hretry 0%nat h ltac:(lia)) as Hans;
      rewrite Nat.add_0_r in Hans;
      destruct (session self (calls w) url h) as [resp|exn] end.
    all: rewrite ?(bool_decide_eq_true_2 (k < max_retries self - 1)) by lia.
    2: { match goal with |- context [attempt_loop _ _ _ _ ?w1] =>
           destruct (IH n (Z.succ k) w1) as (w' & tr & -> & Ht & Hsh) end;
           try done; try lia.
         - intros i h Hi. simpl.
           replace (S (calls w + i)) with (calls w + S i)%nat by lia.
           apply Hretry. lia.
         - intros h. simpl.
           replace (S (calls w + j)) with (calls w + S j)%nat by lia.
           apply Hclean.
         - eexists w', (_ :: _ :: tr). split; [done|]. split.
           + rewrite Ht. simpl. by rewrite <- !app_assoc.
           + simpl. by rewrite Hsh. }
    assert (∃ w' tr,
      attempt_loop entropy self url (seqZ (Z.succ k) (Z.of_nat n))
        (_delay self
           {| calls := S (calls w); draws := S (draws w);
              trace := trace w ++ [EvGet url (_get_headers entropy self w).1] |})
        = (Some r, w')
      ∧ trace w' = trace w ++ tr
      ∧ shape tr = concat (replicate (S j) [true; false]) ++ [true]) as Hgo.
    { match goal with |- context [attempt_loop _ _ _ _ ?w1] =>
        destruct (IH n (Z.succ k) w1) as (w' & tr & -> & Ht & Hsh) end;
        try done; try lia.
      - intros i h Hi. simpl.
        replace (S (calls w + i)) with (calls w + S i)%nat by lia.
        apply Hretry. lia.
      - intros h. simpl.
        replace (S (calls w + j)) with (calls w + S j)%nat by lia.
        apply Hclean.
      - eexists w', (_ :: _ :: tr). split; [done|]. split.
        + rewrite Ht. simpl. by rewrite <- !app_assoc.
        + simpl. by rewrite Hsh. }
    case_bool_decide as Hst'; [|exact Hgo].
    destruct Hans as [Hans|Hans]; [done|]. rewrite Hans. exact Hgo.
Qed.

Lemma make_request_first_clean_run self url w r (j : nat) :
  Z.of_nat j < max_retries self →
  (∀ i h, (i < j)%nat → retried (session self (calls w + i)%nat url h)) →
  (∀ h, session self (calls w + j)%nat url h = Returned r) →
  clean r →
  ∃ w' tr,
    _make_request entropy self url w = (Some r, w')
    ∧ trace w' = trace w ++ tr
    ∧ shape tr = concat (replicate j [true; false]) ++ [true].
Proof.
  intros Hj Hretry Hclean Hr. unfold _make_request, range.
  destruct (attempt_loop_first_clean self url r j
              (Z.to_nat (max_retries self)) 0 w) as (w' & tr & Hrun & Ht & Hsh);
    try done; try lia.
  rewrite Z2Nat.id in Hrun by lia. by exists w', tr.
Qed.

(** X4. A fetch returns the first clean answer: when the next [j] answers
    are exceptions, non-200 statuses or block pages, the one after them is
    a clean 200 and [j < max_retries], the fetch makes [j + 1] GETs with
    one sleep after each of the first [j], and returns that answer. *)
Theorem make_request_first_clean self url w r (j : nat) :
  Z.of_nat j < max_retries self →
  (∀ i h, (i < j)%nat → retried (session self (calls w + i)%nat url h)) →
  (∀ h, session self (calls w + j)%nat url h = Returned r) →
  clean r →
  ∃ w' tr,
    _make_request entropy self url w = (Some r, w')
    ∧ trace w' = trace w ++ tr
    ∧ shape tr = concat (replicate j [true; false]) ++ [true].
Proof. apply make_request_first_clean_run. Qed.

End FetchExtras.

Lemma make_request_attempt_budget_witness :
  ∃ tr,
    trace (_make_request Mock.entropy (Mock.scraper 3 Sample.second_fails)
             Mock.product_url Mock.fresh).2 = trace Mock.fresh ++ tr
    ∧ calls (_make_request Mock.entropy (Mock.scraper 3 Sample.second_fails)
               Mock.product_url Mock.fresh).2
      = (calls Mock.fresh + attempts_in tr)%nat
    ∧ (attempts_in tr ≤ Z.to_nat 3)%nat
    ∧ (Some Sample.clean = None → attempts_in tr = Z.to_nat 3).
Proof.
  apply (make_request_attempt_budget Mock.entropy
           (Mock.scraper 3 Sample.second_fails) Mock.product_url Mock.fresh
           (Some Sample.clean)).
  - discriminate.
  - vm_compute. reflexivity.
Defined.

Lemma make_request_alternates_witness :
  ∃ tr,
    trace (_make_request Mock.entropy
             (Mock.scraper 3 (Mock.always (Returned (Mock.response 200 "robot check"))))
             Mock.product_url Mock.fresh).2 = trace Mock.fresh ++ tr
    ∧ alternates true (shape tr) = true
    ∧ (is_Some (@None Response) → last (shape tr) = Some true).
Proof.
  apply (make_request_alternates Mock.entropy
           (Mock.scraper 3 (Mock.always (Returned (Mock.response 200 "robot check"))))
           Mock.product_url Mock.fresh None).
  - discriminate.
  - vm_compute. reflexivity.
Defined.

Lemma make_request_events_witness :
  ∃ tr,
    trace (_make_request Mock.entropy
             (Mock.scraper 3 (Mock.always (Returned (Mock.response 503 "busy"))))
             Mock.product_url Mock.fresh).2 = trace Mock.fresh ++ tr
    ∧ Forall (fetch_event
                (Mock.scraper 3 (Mock.always (Returned (Mock.response 503 "busy"))))
                Mock.product_url) tr.
Proof.
  apply (make_request_events Mock.entropy
           (Mock.scraper 3 (Mock.always (Returned (Mock.response 503 "busy"))))
           Mock.product_url Mock.fresh None).
  - discriminate.
  - vm_compute. reflexivity.
Defined.

Lemma make_request_first_clean_witness :
  ∃ w' tr,
    _make_request Mock.entropy
      (Mock.scraper 3
         (Mock.script [ Raised "Timeout";
                        Returned (Mock.response 200 "Are you a Robot?");
                        Returned Sample.clean ]))
      Mock.product_url Mock.fresh = (Some Sample.clean, w')
    ∧ trace w' = trace Mock.fresh ++ tr
    ∧ shape tr = concat (replicate 2 [true; false]) ++ [true].
Proof.
  apply (make_request_first_clean Mock.entropy
           (Mock.scraper 3
              (Mock.script [ Raised "Timeout";
                             Returned (Mock.response 200 "Are you a Robot?");
                             Returned Sample.clean ]))
           Mock.product_url Mock.fresh Sample.clean 2).
  - simpl. lia.
  - intros [|[|i]] h Hi; [simpl; done | vm_compute; by right | lia].
  - reflexivity.
  - split; reflexivity.
Defined.

(** * More on the field extractors *)

Section ExtractorExtras.

Lemma for_selectors_None body selectors :
  (∀ selector, selector ∈ selectors → body selector = None) →
  for_selectors body selectors = None.
Proof.
  induction selectors as [|x l IH]; intros H; simpl; [done|].
  rewrite (H x) by left. apply IH. intros s Hs. apply H. by right.
Qed.

Lemma lstrip_all_space s : all_chars is_space s = true → lstrip s = EmptyString.
Proof.
  induction s as [|c s IH]; simpl; [done|].
  intros [Hc Hs]%andb_true_iff. rewrite Hc. by apply IH.
Qed.

Lemma strip_all_space s : all_chars is_space s = true → strip s = EmptyString.
Proof. intros H. unfold strip. by rewrite lstrip_all_space. Qed.

Lemma get_text_strip_blank t :
  all_chars is_space (get_text t) = true → get_text_strip t = EmptyString.
Proof.
  unfold get_text, get_text_strip.
  induction (strings t) as [|x l IH]; [done|].
  rewrite join_cons, all_chars_append. intros [Hx Hl]%andb_true_iff.
  rewrite fmap_cons, filter_cons, (strip_all_space x Hx).
  rewrite decide_False by done. by apply IH.
Qed.

(** X5. The first title selector that finds an element decides: when
    [#productTitle] finds one whose text is white space only, the title is
    the empty string, and the two later selectors are not consulted. *)
Theorem extract_title_blank_first_match soup element :
  select_one soup "#productTitle" = Some element →
  all_chars is_space (get_text element) = true →
  _extract_title soup = Some EmptyString.
Proof.
  intros Hsel Hblank. unfold _extract_title. simpl.
  by rewrite Hsel, (get_text_strip_blank _ Hblank).
Qed.

(** X6. A price that [_extract_price] returns holds a dollar sign, is not
    empty, and is the stripped text of the first element found by one of
    the five price selectors. *)
Theorem extract_price_has_dollar soup price :
  _extract_price soup = Some price →
  contains "$" price = true
  ∧ price ≠ EmptyString
  ∧ ∃ selector element,
      selector ∈ price_selectors
      ∧ select_one soup selector = Some element
      ∧ price = get_text_strip element.
Proof.
  intros (sel & Hin & H)%for_selectors_Some.
  destruct (select_one soup sel) as [e|] eqn:Hsel; [|done]. simpl in H.
  destruct (truthy (get_text_strip e)) eqn:Ht; simpl in H; [|done].
  destruct (contains "$" (get_text_strip e)) eqn:Hd; [|done].
  injection H as <-. split; [done|]. split.
  - by destruct (get_text_strip e).
  - by exists sel, e.
Qed.

(** X7. A price is refused when it lacks the dollar sign: if no first
    match of the five selectors holds one, there is no price. *)
Theorem extract_price_without_dollar soup :
  (∀ selector element,
     selector ∈ price_selectors →
     select_one soup selector = Some element →
     contains "$" (get_text_strip element) = false) →
  _extract_price soup = None.
Proof.
  intros H. apply for_selectors_None. intros sel Hin.
  destruct (select_one soup sel) as [e|] eqn:Hsel; [|done]. simpl.
  rewrite (H sel e Hin Hsel). by rewrite andb_false_r.
Qed.

Lemma span_spec p s a b :
  span p s = (a, b) → s = a +:+ b ∧ all_chars p a = true.
Proof.
  revert a b. induction s as [|c s IH]; intros a b; simpl.
  - by intros [= <- <-].
  - destruct (p c) eqn:Hc.
    + destruct (span p s) as [a0 b0]. intros [= <- <-].
      destruct (IH a0 b0 eq_refl) as [-> Ha].
      split; [by rewrite append_cons|]. simpl. by rewrite Hc.
    + by intros [= <- <-].
Qed.

Lemma match_dot {A} (c : ascii) (X Y : A) :
  match c with "."%char => X | _ => Y end
  = if decide (c = "."%char) then X else Y.
Proof. by destruct c as [[] [] [] [] [] [] [] []]. Qed.

Lemma match_number_spec s g :
  match_number s = Some g →
  decimal_numeral g ∧ ∃ rest, s = g +:+ rest.
Proof.
  unfold match_number.
  destruct (span is_digit s) as [[|d ds] rest] eqn:Hsp; [done|].
  apply span_spec in Hsp as [-> Hints].
  assert (decimal_numeral (String d ds)) as Hint.
  { exists (String d ds), EmptyString. split_and!; try done. by left. }
  destruct rest as [|c rest].
  { intros [= <-]. split; [done|]. by exists EmptyString. }
  rewrite match_dot.
  destruct (decide (c = "."%char)) as [->|Hne].
  - destruct (span is_digit rest) as [frac rest'] eqn:Hsp2.
    apply span_spec in Hsp2 as [-> Hf].
    intros [= <-]. split.
    + exists (String d ds), frac. split_and!; try done. by right.
    + exists rest'. by rewrite !append_assoc.
  - intros [= <-]. split; [done|]. by eexists.
Qed.

Lemma search_number_spec s g :
  search_number s = Some g →
  decimal_numeral g ∧ ∃ pre post, s = pre +:+ g +:+ post.
Proof.
  induction s as [|c s IH]; cbn [search_number].
  - destruct (match_number EmptyString) eqn:Hm; [|done].
    intros [= <-]. apply match_number_spec in Hm as [Hd [rest Hr]].
    split; [done|]. by exists EmptyString, rest.
  - destruct (match_number (String c s)) eqn:Hm.
    + intros [= <-]. apply match_number_spec in Hm as [Hd [rest Hr]].
      split; [done|]. by exists EmptyString, rest.
    + intros H. destruct (IH H) as [Hd (pre & post & ->)].
      split; [done|]. by exists (String c pre), post.
Qed.

(** X8. A rating that [_extract_rating] returns is a decimal numeral, and
    it stands in the text of the first [span.a-icon-alt] element. *)
Theorem extract_rating_is_numeral soup rating :
  _extract_rating soup = Some rating →
  decimal_numeral rating
  ∧ ∃ element pre post,
      select_one soup "span.a-icon-alt" = Some element
      ∧ get_text element = pre +:+ rating +:+ post.
Proof.
  unfold _extract_rating.
  destruct (select_one soup "span.a-icon-alt") as [e|]; [|done].
  intros [Hd (pre & post & Ht)]%search_number_spec.
  split; [done|]. by exists e, pre, post.
Qed.

(** X9. The rating count is taken only from an element whose own text
    mentions rating, in any letter case: a returned count is the stripped
    text of such an element, and there is no count when neither selector
    finds one. *)
Theorem extract_rating_count_mentions_rating soup :
  (∀ count,
     _extract_rating_count soup = Some count →
     ∃ selector element,
       selector ∈ rating_count_selectors
       ∧ select_one soup selector = Some element
       ∧ occurs_ignoring_case "rating" (get_text element)
       ∧ count = get_text_strip element)
  ∧ ((∀ selector element,
        selector ∈ rating_count_selectors →
        select_one soup selector = Some element →
        ¬ occurs_ignoring_case "rating" (get_text element)) →
     _extract_rating_count soup = None).
Proof.
  split.
  - intros count (sel & Hin & H)%for_selectors_Some.
    destruct (select_one soup sel) as [e|] eqn:Hsel; [|done].
    destruct (contains "rating" (lower (get_text e))) eqn:Hc; [|done].
    injection H as <-. exists sel, e. split_and!; try done.
    by apply contains_lower_spec.
  - intros H. apply for_selectors_None. intros sel Hin.
    destruct (select_one soup sel) as [e|] eqn:Hsel; [|done].
    destruct (contains "rating" (lower (get_text e))) eqn:Hc; [|done].
    apply contains_lower_spec in Hc; [|done]. by destruct (H sel e Hin Hsel).
Qed.

(** X10. The length filters: an availability text is non-empty and
    shorter than 100 characters, a description is longer than 50. *)
Theorem extract_length_filters soup :
  (∀ availability,
     _extract_availability soup = Some availability →
     (0 < String.length availability < 100)%nat)
  ∧ (∀ description,
       _extract_description soup = Some description →
       (50 < String.length description)%nat).
Proof.
  split.
  - intros v (sel & _ & H)%for_selectors_Some.
    destruct (select_one soup sel) as [e|]; [|done]. simpl in H.
    destruct (truthy (get_text_strip e)) eqn:Ht; simpl in H; [|done].
    case_bool_decide; [|done]. injection H as <-.
    split; [|done]. destruct (get_text_strip e); [done | simpl; lia].
  - intros v (sel & _ & H)%for_selectors_Some.
    destruct (select_one soup sel) as [e|]; [|done]. simpl in H.
    destruct (truthy (get_text_strip e)) eqn:Ht; simpl in H; [|done].
    case_bool_decide; [|done]. by injection H as <-.
Qed.

Lemma foldl_append_filter {A B} (keep : A → bool) (f : A → B) l acc :
  foldl (λ acc x, if keep x then acc ++ [f x] else acc) acc l
  = acc ++ (f <$> filter (λ x, keep x = true) l).
Proof.
  revert acc. induction l as [|x l IH]; intros acc; simpl.
  - by rewrite app_nil_r.
  - rewrite IH, filter_cons. destruct (keep x) eqn:Hk.
    + rewrite decide_True by done. by rewrite fmap_cons, <- app_assoc.
    + by rewrite decide_False by done.
Qed.

(** X11. The features are the stripped texts of the bullet elements, in
    document order, without those of ten characters or fewer. *)
Theorem extract_features_is_filter soup :
  _extract_features soup
  = filter (λ text, (10 < String.length text)%nat)
      (get_text_strip <$> select soup "#feature-bullets li span.a-list-item").
Proof.
  unfold _extract_features.
  rewrite (foldl_append_filter
             (λ element,
                truthy (get_text_strip element)
                && bool_decide (10 < String.length (get_text_strip element))%nat)
             get_text_strip).
  rewrite app_nil_l.
  induction (select soup "#feature-bullets li span.a-list-item") as [|e l IH];
    [done|].
  rewrite fmap_cons, !filter_cons, <- IH.
  destruct (decide (10 < String.length (get_text_strip e))%nat) as [Hlen|Hlen].
  - rewrite decide_True; [done|].
    rewrite bool_decide_eq_true_2 by done.
    destruct (get_text_strip e); [simpl in Hlen; lia | done].
  - rewrite decide_False; [done|].
    rewrite bool_decide_eq_false_2 by done. by rewrite andb_false_r.
Qed.

End ExtractorExtras.

(** * Images *)

Section ImageExtras.

Lemma span_rest p s a q b : span p s = (a, String q b) → p q = false.
Proof.
  revert a. induction s as [|c s IH]; intros a; simpl; [done|].
  destruct (p c) eqn:Hc.
  - destruct (span p s) as [a0 b0] eqn:Hsp. intros [= <- ->]. by eapply IH.
  - by intros [= <- <- <-].
Qed.

Lemma match_hires_spec s g :
  match_hires s = Some g →
  g ≠ EmptyString
  ∧ all_chars not_dquote g = true
  ∧ ∃ post, s = hires_head +:+ g +:+ String dquote post.
Proof.
  unfold match_hires.
  destruct (after_prefix hires_head s) as [rest|] eqn:Hp; [|done].
  apply after_prefix_spec in Hp as ->.
  destruct (span not_dquote rest) as [[|c a] [|q b]] eqn:Hsp; try done.
  intros [= <-].
  pose proof (span_rest _ _ _ _ _ Hsp) as Hq.
  apply span_spec in Hsp as [-> Ha].
  split; [done|]. split; [done|]. exists b.
  unfold not_dquote in Hq. apply negb_false_iff, bool_decide_eq_true in Hq.
  by subst q.
Qed.

Lemma findall_hires_from_sound skip s g :
  g ∈ findall_hires_from skip s →
  ∃ pre rest, s = pre +:+ rest ∧ match_hires rest = Some g.
Proof.
  revert skip. induction s as [|c s IH]; intros skip; cbn [findall_hires_from].
  - by intros ?%elem_of_nil.
  - assert (∀ k, g ∈ findall_hires_from k s →
              ∃ pre rest, String c s = pre +:+ rest ∧ match_hires rest = Some g)
      as Hrec.
    { intros k (pre & rest & -> & Hm)%IH. by exists (String c pre), rest. }
    destruct skip as [|k]; [|apply Hrec].
    destruct (match_hires (String c s)) as [g0|] eqn:Hm; [|apply Hrec].
    intros [->|Hin]%elem_of_cons; [|by eapply Hrec].
    by exists EmptyString, (String c s).
Qed.

(** X12. Every string that the image pattern finds in the page text is
    non-empty, free of double quotes, and stands in the text between the
    quoted key hiRes with its colon and a closing double quote. *)
Theorem findall_hires_sound body g :
  g ∈ findall_hires body →
  g ≠ EmptyString
  ∧ all_chars not_dquote g = true
  ∧ ∃ pre post, body = pre +:+ hires_head +:+ g +:+ String dquote post.
Proof.
  intros (pre & rest & -> & Hm)%findall_hires_from_sound.
  apply match_hires_spec in Hm as (Hne & Hq & post & ->).
  split; [done|]. split; [done|]. by exists pre, post.
Qed.

Lemma foldl_accepted_src imgs acc :
  foldl (λ images img,
           match get img "src" with
           | Some src =>
               if truthy src && contains "http" src
               then images ++ [src] else images
           | None => images
           end) acc imgs
  = acc ++ omap accepted_src imgs.
Proof.
  revert acc. induction imgs as [|img l IH]; intros acc; simpl.
  - by rewrite app_nil_r.
  - rewrite IH. unfold accepted_src at 2.
    destruct (get img "src") as [src|]; [|done].
    destruct (truthy src && contains "http" src); [|done].
    by rewrite <- app_assoc.
Qed.

(** X13. The images hold no duplicate. When the pattern finds something
    in the page text the images are exactly what it finds, and the image
    elements are not looked at; otherwise they are exactly the non-empty
    [src] attributes holding [http] of the landing image elements. *)
Theorem extract_images_spec soup html :
  NoDup (_extract_images soup html)
  ∧ ∀ x,
      x ∈ _extract_images soup html ↔
      if decide (findall_hires html = [])
      then ∃ img, img ∈ select soup landing_image_selector
                  ∧ accepted_src img = Some x
      else x ∈ findall_hires html.
Proof.
  unfold _extract_images. split; [apply NoDup_elements|].
  intros x. rewrite elem_of_elements, elem_of_list_to_set.
  destruct (findall_hires html) as [|m ms] eqn:Hf.
  - rewrite decide_True by done.
    rewrite foldl_accepted_src, app_nil_l, list_elem_of_omap. done.
  - rewrite decide_False by done. by rewrite app_nil_l.
Qed.

End ImageExtras.

(** * More on the record *)

Section RecordExtras.

Variable entropy : nat → nat.
Variable now_isoformat : World → string.
Variable BeautifulSoup : string → Outcome Soup.

Lemma lookup_without_None_option d k (o : option string) :
  d !! k = Some (of_option o) → without_None d !! k = VStr <$> o.
Proof.
  intros Hd. destruct o as [s|]; simpl.
  - apply lookup_without_None. by split.
  - unfold without_None. apply map_lookup_filter_None. right.
    intros v Hv. rewrite Hd in Hv. injection Hv as <-. simpl. by intros H.
Qed.

Ltac literal_entry :=
  unfold product_data, list_to_map; cbn [foldr]; unfold uncurry;
  cbn [fst snd];
  repeat (rewrite lookup_insert_ne by discriminate);
  apply lookup_insert_eq.

(** X14. In a returned record every optional key is present exactly when
    its extractor returned a value, and then holds that value; the lists
    and the time stamp are stored as computed; no key outside the eleven
    field names exists. *)
Theorem scraped_record_lookup self url w rec w' :
  scrape_product entropy now_isoformat BeautifulSoup self url w
    = (Returned (Some rec), w') →
  ∃ r soup,
    _make_request entropy self url w = (Some r, w')
    ∧ BeautifulSoup (content r) = Returned soup
    ∧ rec !! "asin" = VStr <$> search_asin url
    ∧ rec !! "title" = VStr <$> _extract_title soup
    ∧ rec !! "price" = VStr <$> _extract_price soup
    ∧ rec !! "rating" = VStr <$> _extract_rating soup
    ∧ rec !! "rating_count" = VStr <$> _extract_rating_count soup
    ∧ rec !! "availability" = VStr <$> _extract_availability soup
    ∧ rec !! "description" = VStr <$> _extract_description soup
    ∧ rec !! "images" = Some (VList (_extract_images soup (text r)))
    ∧ rec !! "features" = Some (VList (_extract_features soup))
    ∧ rec !! "scraped_at" = Some (VStr (now_isoformat w'))
    ∧ ∀ k, is_Some (rec !! k) → k ∈ field_names.
Proof.
  intros (r & soup & Hreq & Hparse & ->)%scrape_product_Some.
  exists r, soup. split; [done|]. split; [done|].
  repeat (split; [first
    [ apply lookup_without_None_option; literal_entry
    | apply lookup_without_None; split; [literal_entry | discriminate] ]|]).
  intros k [v [Hk _]%lookup_without_None].
  apply product_data_lookup in Hk. unfold field_names.
  rewrite !elem_of_cons.
  destruct Hk as [[-> _]|[[-> _]|[[-> _]|[[-> _]|[[-> _]|[[-> _]|
                 [[-> _]|[[-> _]|[[-> _]|[[-> _]|[-> _]]]]]]]]]]]; tauto.
Qed.

End RecordExtras.

Lemma scraped_record_lookup_witness :
  ∃ r,
    _make_request Mock.entropy (Mock.scraper 3 (Mock.always (Returned Sample.clean)))
      Mock.product_url Mock.fresh
    = (Some r,
       (_make_request Mock.entropy
          (Mock.scraper 3 (Mock.always (Returned Sample.clean)))
          Mock.product_url Mock.fresh).2)
    ∧ without_None
        (product_data (Mock.clock Mock.fresh) Sample.page Mock.product_url
           Sample.clean) !! "asin" = VStr <$> search_asin Mock.product_url.
Proof.
  destruct (scraped_record_lookup Mock.entropy Mock.clock
              (Mock.parsed Sample.page)
              (Mock.scraper 3 (Mock.always (Returned Sample.clean)))
              Mock.product_url Mock.fresh
              (without_None
                 (product_data (Mock.clock Mock.fresh) Sample.page
                    Mock.product_url Sample.clean))
              (_make_request Mock.entropy
                 (Mock.scraper 3 (Mock.always (Returned Sample.clean)))
                 Mock.product_url Mock.fresh).2)
    as (r & soup & Hr & _ & Hasin & _).
  - vm_compute. reflexivity.
  - exists r. split; [exact Hr | exact Hasin].
Defined.

(** * More on the listing walker *)

Section WalkerExtras.

Variable entropy : nat → nat.
Variable BeautifulSoup : string → Outcome Soup.
Variable urljoin : string → string → string.

Local Abbreviation page_loop' := (page_loop entropy BeautifulSoup urljoin).
Local Abbreviation search_products' :=
  (search_products entropy BeautifulSoup urljoin).

Lemma before_char_free sep s : has_char sep (before_char sep s) = false.
Proof.
  induction s as [|c s IH]; simpl; [done|].
  case_bool_decide as Hc; [done|]. simpl.
  rewrite bool_decide_eq_false_2 by done. exact IH.
Qed.

Lemma foldl_anchor_links elements acc :
  foldl (λ product_urls element,
           match get element "href" with
           | Some relative_url =>
               if truthy relative_url then
                 product_urls
                   ++ [urljoin "https://www.amazon.com"
                         (before_char "?" relative_url)]
               else product_urls
           | None => product_urls
           end) acc elements
  = acc ++ omap (anchor_link urljoin) elements.
Proof.
  revert acc. induction elements as [|e l IH]; intros acc; simpl.
  - by rewrite app_nil_r.
  - rewrite IH. unfold anchor_link at 2.
    destruct (get e "href") as [rel|]; [|done].
    destruct (truthy rel); [|done]. by rewrite <- app_assoc.
Qed.

(** One turn of the loop: the fetch of the page, then, on a response, the
    parse of its body and, when the parser returns, the links of the page
    and one sleep. *)
Lemma page_loop_cons self keyword page todo acc w :
  page_loop' self keyword (page :: todo) acc w =
  match _make_request entropy self (search_url keyword page) w with
  | (Some r, w1) =>
      match BeautifulSoup (content r) with
      | Returned soup =>
          page_loop' self keyword todo (acc ++ page_links urljoin soup)
            (_delay self w1)
      | Raised exn => (Raised exn, w1)
      end
  | (None, w1) => page_loop' self keyword todo acc w1
  end.
Proof.
  cbn [page_loop]. fold (search_url keyword page).
  destruct (_make_request entropy self (search_url keyword page) w)
    as [[r|] w1] eqn:Hreq; [|done].
  rewrite (make_request_ok _ _ _ _ _ _ Hreq). cbn [negb].
  destruct (BeautifulSoup (content r)) as [soup|exn]; [|done].
  by rewrite foldl_anchor_links.
Qed.

Lemma page_loop_trace self keyword pages n k acc w :
  user_agents self ≠ [] →
  1 ≤ k → k + Z.of_nat n = pages + 1 →
  ∃ tr,
    trace (page_loop' self keyword (seqZ k (Z.of_nat n)) acc w).2
      = trace w ++ tr
    ∧ (attempts_in tr ≤ n * Z.to_nat (max_retries self))%nat
    ∧ Forall (walk_event self keyword pages) tr.
Proof.
  intros Hua. revert k acc w.
  induction n as [|n IH]; intros k acc w Hk Hn.
  - exists []. simpl. rewrite app_nil_r.
    split_and!; [done | change (attempts_in []) with 0%nat; lia | constructor].
  - rewrite seqZ_cons by lia.
    replace (Z.pred (Z.of_nat (S n))) with (Z.of_nat n) by lia.
    rewrite page_loop_cons.
    destruct (_make_request entropy self (search_url keyword k) w)
      as [res w1] eqn:Hreq.
    destruct (make_request_trace _ _ _ _ _ _ Hua Hreq)
      as (tr1 & Ht1 & _ & Hle1 & _ & _ & _ & Hall1).
    assert (Forall (walk_event self keyword pages) tr1) as Hwalk1.
    { eapply Forall_impl; [exact Hall1|]. intros [u h|lo hi]; simpl; [|done].
      intros [-> _]. exists k. split; [lia | done]. }
    destruct res as [r|].
    + destruct (BeautifulSoup (content r)) as [soup|exn].
      * edestruct (IH (Z.succ k)) as (tr & Ht & Hle & Hall); [lia | lia |].
        rewrite Ht. simpl. rewrite Ht1.
        exists (tr1 ++ EvSleep (delay_range self).1 (delay_range self).2 :: tr).
        split_and!.
        -- by rewrite <- !app_assoc.
        -- rewrite attempts_in_app, attempts_in_cons_sleep. lia.
        -- apply Forall_app. split; [done|]. constructor; [|done].
           simpl. by destruct (delay_range self).
      * exists tr1. simpl. split_and!; [done | nia | done].
    + edestruct (IH (Z.succ k)) as (tr & Ht & Hle & Hall); [lia | lia |].
      rewrite Ht, Ht1. exists (tr1 ++ tr). split_and!.
      * by rewrite <- !app_assoc.
      * rewrite attempts_in_app. lia.
      * apply Forall_app. by split.
Qed.

Lemma search_products_trace self keyword pages w :
  user_agents self ≠ [] →
  ∃ tr,
    trace (search_products' self keyword pages w).2 = trace w ++ tr
    ∧ (attempts_in tr ≤ Z.to_nat pages * Z.to_nat (max_retries self))%nat
    ∧ Forall (walk_event self keyword pages) tr.
Proof.
  intros Hua. unfold search_products, range2.
  replace (pages + 1 - 1) with pages by lia.
  destruct (decide (0 ≤ pages)) as [Hpos|Hneg].
  - destruct (page_loop_trace self keyword pages (Z.to_nat pages) 1 [] w)
      as (tr & Ht & Hle & Hall); [done | lia | lia |].
    rewrite Z2Nat.id in Ht by lia. by exists tr.
  - rewrite seqZ_nil by lia. exists []. simpl. rewrite app_nil_r.
    split_and!; [done | change (attempts_in []) with 0%nat; lia | constructor].
Qed.

(** X15. A walk over [pages] pages issues at most [pages * max_retries]
    GETs, each to the search URL of the keyword for a page between 1 and
    [pages]; with no page to visit it issues none. The bound holds of the
    walk that returns and of the walk a rejected page ends. *)
Theorem search_products_budget self keyword pages w :
  user_agents self ≠ [] →
  ∃ tr,
    trace (search_products' self keyword pages w).2 = trace w ++ tr
    ∧ (attempts_in tr ≤ Z.to_nat pages * Z.to_nat (max_retries self))%nat
    ∧ Forall (walk_event self keyword pages) tr.
Proof. apply search_products_trace. Qed.

Lemma page_links_query_free soup :
  Forall (λ u, ∃ path,
            u = urljoin "https://www.amazon.com" path
            ∧ has_char "?" path = false)
         (page_links urljoin soup).
Proof.
  apply Forall_forall. intros u (e & _ & He)%list_elem_of_omap.
  unfold anchor_link in He.
  destruct (get e "href") as [rel|]; [|done].
  destruct (truthy rel); [|done]. injection He as <-.
  eexists. split; [done|]. apply before_char_free.
Qed.

Lemma page_loop_links self keyword todo acc w urls :
  (page_loop' self keyword todo acc w).1 = Returned urls →
  ∃ found,
    urls = acc ++ found
    ∧ Forall (λ u, ∃ path,
                u = urljoin "https://www.amazon.com" path
                ∧ has_char "?" path = false) found.
Proof.
  revert acc w. induction todo as [|page todo IH]; intros acc w.
  - simpl. intros [= <-]. exists []. by rewrite app_nil_r.
  - rewrite page_loop_cons.
    destruct (_make_request entropy self (search_url keyword page) w)
      as [[r|] w1]; [|apply IH].
    destruct (BeautifulSoup (content r)) as [soup|exn]; [|by intros H].
    intros (found & -> & Hall)%IH.
    exists (page_links urljoin soup ++ found).
    split; [by rewrite app_assoc|].
    apply Forall_app. split; [apply page_links_query_free | done].
Qed.

(** X16. Every URL that [search_products] returns is a link joined to
    the site root after its query string was cut off: the part joined
    holds no question mark. *)
Theorem search_products_links_query_free self keyword pages w urls :
  (search_products' self keyword pages w).1 = Returned urls →
  Forall (λ u, ∃ path,
            u = urljoin "https://www.amazon.com" path
            ∧ has_char "?" path = false)
         urls.
Proof.
  unfold search_products.
  intros (found & -> & Hall)%page_loop_links. done.
Qed.



Lemma page_loop_never_200 self keyword todo acc w :
  never_200 (session self) →
  ∃ w' tr,
    page_loop' self keyword todo acc w = (Returned acc, w')
    ∧ trace w' = trace w ++ tr
    ∧ shape tr
      = concat (replicate (length todo)
                  (concat (failed_attempt_shape self
                             <$> range (max_retries self)))).
Proof.
  intros Hs. revert w. induction todo as [|page todo IH]; intros w.
  - exists w, []. by rewrite app_nil_r.
  - rewrite page_loop_cons. unfold _make_request.
    destruct (attempt_loop_never_200 entropy self (search_url keyword page)
                (range (max_retries self)) w Hs)
      as (w1 & tr1 & -> & Ht1 & Hsh1).
    destruct (IH w1) as (w' & tr & -> & Ht & Hsh).
    exists w', (tr1 ++ tr). split_and!; [done| |].
    + by rewrite Ht, Ht1, <- app_assoc.
    + unfold shape in *. rewrite fmap_app, Hsh1, Hsh. done.
Qed.

(** X18. Over a site that never answers 200 the walk still visits every
    page, spends the whole retry budget on each, sleeps only between the
    retries of a page, and returns no URL. *)
Theorem search_products_never_200 self keyword pages w :
  never_200 (session self) →
  ∃ w' tr,
    search_products' self keyword pages w = (Returned [], w')
    ∧ trace w' = trace w ++ tr
    ∧ shape tr
      = concat (replicate (Z.to_nat pages)
                  (concat (failed_attempt_shape self
                             <$> range (max_retries self)))).
Proof.
  intros Hs. unfold search_products, range2.
  destruct (page_loop_never_200 self keyword (seqZ 1 (pages + 1 - 1)) [] w Hs)
    as (w' & tr & Hrun & Ht & Hsh).
  rewrite length_seqZ in Hsh.
  replace (pages + 1 - 1) with pages in * by lia.
  by exists w', tr.
Qed.

End WalkerExtras.

(** * More on runs over several products *)

Section RunExtras.

Variable entropy : nat → nat.
Variable now_isoformat : World → string.
Variable BeautifulSoup : string → Outcome Soup.

Local Abbreviation scrape_product' :=
  (scrape_product entropy now_isoformat BeautifulSoup).
Local Abbreviation scrape_each' :=
  (scrape_each entropy now_isoformat BeautifulSoup).
Local Abbreviation product_loop' :=
  (product_loop entropy now_isoformat BeautifulSoup).
Local Abbreviation scrape_multiple_products' :=
  (scrape_multiple_products entropy now_isoformat BeautifulSoup).

Lemma scraped_record_url self url w rec w' :
  scrape_product' self url w = (Returned (Some rec), w') →
  record_url rec = url_entry url.
Proof.
  intros (r & soup & _ & _ & ->)%scrape_product_Some.
  apply lookup_without_None. split; [|discriminate].
  unfold product_data, list_to_map; cbn [foldr]; unfold uncurry; cbn [fst snd].
  rewrite lookup_insert_ne by discriminate. apply lookup_insert_eq.
Qed.

(** One turn of the loop: the scrape of the URL; when it raises, the loop
    is left with the exception; when it returns, the record, if any, is
    appended, and the loop sleeps unless the URL was the last. *)
Lemma product_loop_cons self len i url todo products w :
  product_loop' self len ((i, url) :: todo) products w =
  match scrape_product' self url w with
  | (Returned scraped, w1) =>
      product_loop' self len todo (products ++ option_list scraped)
        (if bool_decide (i < len) then _delay self w1 else w1)
  | (Raised exn, w1) => (Raised exn, w1)
  end.
Proof.
  cbn [product_loop].
  destruct (scrape_product' self url w) as [[[d|]|exn] w1] eqn:Hs; [| |done].
  - rewrite bool_decide_eq_true_2 by (by eapply scraped_record_not_empty).
    done.
  - simpl. by rewrite app_nil_r.
Qed.

Lemma enumerate1_urls urls : (enumerate1 urls).*2 = urls.
Proof.
  unfold enumerate1. apply snd_zip. rewrite length_seqZ. lia.
Qed.

(** What a loop that returns has appended: one record for each URL of a
    subsequence of the URLs it was given, in their order. *)
Lemma product_loop_records (R : gmap string Value → string → Prop)
    self len todo products w result :
  (∀ url w rec w',
     scrape_product' self url w = (Returned (Some rec), w') → R rec url) →
  (product_loop' self len todo products w).1 = Returned result →
  ∃ kept recs,
    sublist kept todo.*2 ∧ result = products ++ recs ∧ Forall2 R recs kept.
Proof.
  intros HR. revert products w.
  induction todo as [|[i url] todo IH]; intros products w.
  - simpl. intros [= <-]. exists [], []. by rewrite app_nil_r.
  - rewrite product_loop_cons.
    destruct (scrape_product' self url w) as [[[d|]|exn] w1] eqn:Hs;
      [| |by intros H].
    + intros (kept & recs & Hsub & -> & Hall)%IH.
      exists (url :: kept), (d :: recs). split_and!.
      * by constructor.
      * simpl. by rewrite <- app_assoc.
      * constructor; [by eapply HR | done].
    + intros (kept & recs & Hsub & -> & Hall)%IH.
      exists kept, recs. split_and!; [by constructor | | done].
      simpl. by rewrite app_nil_r.
Qed.

Lemma scrape_multiple_products_records (R : gmap string Value → string → Prop)
    self urls w products :
  (∀ url w rec w',
     scrape_product' self url w = (Returned (Some rec), w') → R rec url) →
  (scrape_multiple_products' self urls w).1 = Returned products →
  ∃ kept, sublist kept urls ∧ Forall2 R products kept.
Proof.
  intros HR Hrun. unfold scrape_multiple_products in Hrun.
  apply (product_loop_records R) in Hrun as (kept & recs & Hsub & -> & Hall);
    [|exact HR].
  rewrite enumerate1_urls in Hsub. by exists kept.
Qed.

(** X19. The records of a run belong to input URLs, in input order: the
    [url] entries of the result are those of a subsequence of the input,
    so there are never more records than URLs. *)
Theorem scrape_multiple_products_urls self urls w products :
  (scrape_multiple_products' self urls w).1 = Returned products →
  ∃ kept,
    sublist kept urls
    ∧ record_url <$> products = url_entry <$> kept
    ∧ (length products ≤ length urls)%nat.
Proof.
  intros (kept & Hsub & Hall)%(scrape_multiple_products_records
                                 (λ rec url, record_url rec = url_entry url));
    [|apply scraped_record_url].
  exists kept. split_and!; [done| |].
  - by apply list_eq_Forall2, Forall2_fmap.
  - rewrite (Forall2_length _ _ _ Hall). by apply sublist_length.
Qed.

Lemma scrape_product_trace self url w :
  user_agents self ≠ [] →
  ∃ tr,
    trace (scrape_product' self url w).2 = trace w ++ tr
    ∧ (attempts_in tr ≤ Z.to_nat (max_retries self))%nat
    ∧ Forall (fetch_event self url) tr.
Proof.
  intros Hua. rewrite scrape_product_unfold.
  destruct (_make_request entropy self url w) as [res w1] eqn:Hreq.
  destruct (make_request_trace _ _ _ _ _ _ Hua Hreq)
    as (tr & Ht & _ & Hle & _ & _ & _ & Hall).
  exists tr. destruct res as [r|]; [|done].
  by destruct (BeautifulSoup (content r)).
Qed.

(** The events of a loop, whether it returns or is left by an
    exception. *)
Lemma product_loop_trace self len todo products w :
  user_agents self ≠ [] →
  ∃ tr,
    trace (product_loop' self len todo products w).2 = trace w ++ tr
    ∧ (attempts_in tr ≤ length todo * Z.to_nat (max_retries self))%nat
    ∧ Forall (run_event self todo.*2) tr.
Proof.
  intros Hua. revert products w.
  induction todo as [|[i url] todo IH]; intros products w.
  - exists []. simpl. rewrite app_nil_r.
    split_and!; [done | change (attempts_in []) with 0%nat; lia | constructor].
  - rewrite product_loop_cons.
    destruct (scrape_product_trace self url w Hua) as (tr1 & Ht1 & Hle1 & Hall1).
    destruct (scrape_product' self url w) as [outcome w1].
    cbn [snd] in Ht1.
    assert (Forall (run_event self ((i, url) :: todo).*2) tr1) as Hrun1.
    { eapply Forall_impl; [exact Hall1|]. intros [u h|lo hi]; simpl; [|done].
      intros [-> _]. left. }
    assert (∀ tr, Forall (run_event self todo.*2) tr →
                  Forall (run_event self ((i, url) :: todo).*2) tr) as Hmono.
    { intros tr Htr. eapply Forall_impl; [exact Htr|].
      intros [u h|lo hi]; simpl; [|done]. by right. }
    destruct outcome as [scraped|exn].
    + match goal with |- context [product_loop' self len todo ?ps ?w2] =>
        destruct (IH ps w2) as (tr & Ht & Hle & Hall) end.
      rewrite Ht. case_bool_decide.
      * simpl trace. rewrite Ht1.
        exists (tr1 ++ EvSleep (delay_range self).1 (delay_range self).2 :: tr).
        split_and!.
        -- by rewrite <- !app_assoc.
        -- rewrite attempts_in_app, attempts_in_cons_sleep.
           simpl length. lia.
        -- apply Forall_app. split; [done|]. constructor.
           ++ simpl. by destruct (delay_range self).
           ++ by apply Hmono.
      * rewrite Ht1. exists (tr1 ++ tr). split_and!.
        -- by rewrite <- !app_assoc.
        -- rewrite attempts_in_app. simpl length. lia.
        -- apply Forall_app. split; [done | by apply Hmono].
    + exists tr1. cbn [snd]. split_and!; [done | simpl length; nia | done].
Qed.

Lemma scrape_multiple_products_trace self urls w :
  user_agents self ≠ [] →
  ∃ tr,
    trace (scrape_multiple_products' self urls w).2 = trace w ++ tr
    ∧ (attempts_in tr ≤ length urls * Z.to_nat (max_retries self))%nat
    ∧ Forall (run_event self urls) tr.
Proof.
  intros Hua. unfold scrape_multiple_products.
  destruct (product_loop_trace self (Z.of_nat (length urls))
              (enumerate1 urls) [] w Hua) as (tr & Ht & Hle & Hall).
  rewrite enumerate1_urls in Hall.
  replace (length (enumerate1 urls)) with (length urls) in Hle
    by (by rewrite <- (enumerate1_urls urls) at 1; rewrite length_fmap).
  by exists tr.
Qed.

(** X20. A run over a list of URLs issues at most [max_retries] GETs per
    URL, and every GET goes to one of the URLs of the list. The bound
    holds of the run that returns and of the run a rejected page ends. *)
Theorem scrape_multiple_products_budget self urls w :
  user_agents self ≠ [] →
  ∃ tr,
    trace (scrape_multiple_products' self urls w).2 = trace w ++ tr
    ∧ (attempts_in tr ≤ length urls * Z.to_nat (max_retries self))%nat
    ∧ Forall (run_event self urls) tr.
Proof. apply scrape_multiple_products_trace. Qed.

Lemma make_request_clean_now self url w :
  0 < max_retries self →
  always_clean (session self) →
  ∃ r w' tr,
    _make_request entropy self url w = (Some r, w')
    ∧ (∃ n headers, session self n url headers = Returned r)
    ∧ trace w' = trace w ++ tr
    ∧ shape tr = [true].
Proof.
  intros Hmax Hs. unfold _make_request, range.
  rewrite seqZ_cons by lia. simpl.
  match goal with |- context [session self ?n ?u ?h] =>
    destruct (Hs n u h) as (r & Hr & Hst & Hb); rewrite Hr end.
  rewrite bool_decide_eq_true_2 by done. rewrite Hb.
  eexists r, _, [_]. split; [reflexivity|].
  split; [by eexists _, _|]. split; reflexivity.
Qed.

Lemma product_record_url now soup url r :
  record_url (without_None (product_data now soup url r)) = url_entry url.
Proof.
  apply lookup_without_None. split; [|discriminate].
  unfold product_data, list_to_map; cbn [foldr]; unfold uncurry; cbn [fst snd].
  rewrite lookup_insert_ne by discriminate. apply lookup_insert_eq.
Qed.

Lemma scrape_each_always_clean self urls w :
  0 < max_retries self →
  always_clean (session self) →
  (∀ n url headers r,
     session self n url headers = Returned r →
     ∃ soup, BeautifulSoup (content r) = Returned soup) →
  ∃ tr,
    Forall came_back (scrape_each' self urls w).1
    ∧ record_url <$> omap kept_record (scrape_each' self urls w).1
      = url_entry <$> urls
    ∧ trace (scrape_each' self urls w).2 = trace w ++ tr
    ∧ shape tr = tail (concat (replicate (length urls) [false; true])).
Proof.
  intros Hmax Hs Hparse. revert w. induction urls as [|url rest IH]; intros w.
  - exists []. simpl. rewrite app_nil_r. by split_and!.
  - rewrite scrape_each_cons, scrape_product_unfold.
    destruct (make_request_clean_now self url w Hmax Hs)
      as (r & w1 & tr1 & -> & (n & headers & Hr) & Ht1 & Hsh1).
    destruct (Hparse _ _ _ _ Hr) as [soup ->].
    cbn zeta. cbn [fst snd].
    destruct rest as [|url2 rest].
    + exists tr1. cbn [scrape_each fst snd omap kept_record].
      split_and!; [|simpl; by rewrite product_record_url|done|done].
      constructor; [by eexists | constructor].
    + destruct (IH (_delay self w1)) as (tr & Hback & Hk & Ht & Hsh).
      exists (tr1 ++ EvSleep (delay_range self).1 (delay_range self).2 :: tr).
      split_and!.
      * constructor; [by eexists | done].
      * cbn [omap kept_record]. simpl.
        rewrite product_record_url. f_equal. exact Hk.
      * rewrite Ht. simpl trace. rewrite Ht1. by rewrite <- !app_assoc.
      * unfold shape in *. rewrite fmap_app, fmap_cons, Hsh1, Hsh. done.
Qed.

(** X21. Let the scraper allow at least one attempt ([0 < max_retries]),
    the site answer every request with a clean 200, and the parser accept
    the body of every page the site serves. Then a run returns one record
    per URL, in input order, makes one GET per URL and sleeps once
    between two URLs, not after the last. *)
Theorem scrape_multiple_products_always_clean self urls w :
  0 < max_retries self →
  always_clean (session self) →
  (∀ n url headers r,
     session self n url headers = Returned r →
     ∃ soup, BeautifulSoup (content r) = Returned soup) →
  ∃ products w' tr,
    scrape_multiple_products' self urls w = (Returned products, w')
    ∧ record_url <$> products = url_entry <$> urls
    ∧ trace w' = trace w ++ tr
    ∧ shape tr = tail (concat (replicate (length urls) [false; true])).
Proof.
  intros Hmax Hs Hparse.
  destruct (scrape_each_always_clean self urls w Hmax Hs Hparse)
    as (tr & Hback & Hk & Ht & Hsh).
  unfold scrape_multiple_products, enumerate1.
  rewrite product_loop_spec by (first [lia | exact Hback]).
  by eexists _, _, tr.
Qed.

End RunExtras.
(** * The further properties on concrete inputs *)

Lemma extract_title_blank_first_match_witness :
  _extract_title Mock.blank_title = Some EmptyString.
Proof.
  apply (extract_title_blank_first_match Mock.blank_title
           {| strings := ["  "]; attrs := ∅ |}); reflexivity.
Defined.

Lemma extract_price_has_dollar_witness :
  contains "$" "$19.99" = true
  ∧ "$19.99" ≠ EmptyString
  ∧ ∃ selector element,
      selector ∈ price_selectors
      ∧ select_one Sample.page selector = Some element
      ∧ "$19.99" = get_text_strip element.
Proof.
  apply (extract_price_has_dollar Sample.page "$19.99"). reflexivity.
Defined.

Lemma extract_price_without_dollar_witness :
  _extract_price Fixture.detail = None.
Proof.
  apply (extract_price_without_dollar Fixture.detail).
  intros selector element Hin.
  unfold price_selectors in Hin.
  repeat (apply elem_of_cons in Hin as [->|Hin]);
    [..|by apply elem_of_nil in Hin];
    vm_compute; intros H; try discriminate H;
    injection H as <-; reflexivity.
Defined.

Lemma extract_rating_is_numeral_witness :
  decimal_numeral "4.5"
  ∧ ∃ element pre post,
      select_one Fixture.detail "span.a-icon-alt" = Some element
      ∧ get_text element = pre +:+ "4.5" +:+ post.
Proof.
  apply (extract_rating_is_numeral Fixture.detail "4.5"). reflexivity.
Defined.

Lemma extract_rating_count_mentions_rating_witness :
  ∃ selector element,
    selector ∈ rating_count_selectors
    ∧ select_one Fixture.detail selector = Some element
    ∧ occurs_ignoring_case "rating" (get_text element)
    ∧ "1,234 ratings" = get_text_strip element.
Proof.
  apply (proj1 (extract_rating_count_mentions_rating Fixture.detail)
           "1,234 ratings").
  reflexivity.
Defined.

Lemma extract_length_filters_witness :
  (0 < String.length "In Stock" < 100)%nat.
Proof.
  apply (proj1 (extract_length_filters Fixture.detail) "In Stock").
  reflexivity.
Defined.

Lemma findall_hires_sound_witness :
  "https://m.media-amazon.com/images/I/71.jpg" ≠ EmptyString
  ∧ all_chars not_dquote "https://m.media-amazon.com/images/I/71.jpg" = true
  ∧ ∃ pre post,
      Fixture.image_body
      = pre +:+ hires_head +:+ "https://m.media-amazon.com/images/I/71.jpg"
          +:+ String dquote post.
Proof.
  apply (findall_hires_sound Fixture.image_body
           "https://m.media-amazon.com/images/I/71.jpg").
  apply (bool_decide_unpack _). vm_compute. exact I.
Defined.

(** The same image found twice in the body is kept once. *)
Example duplicate_image_is_kept_once :
  findall_hires Fixture.image_body
  = [ "https://m.media-amazon.com/images/I/71.jpg";
      "https://m.media-amazon.com/images/I/71.jpg" ]
  ∧ _extract_images Mock.no_match Fixture.image_body
    = [ "https://m.media-amazon.com/images/I/71.jpg" ].
Proof. split; vm_compute; reflexivity. Qed.

Lemma search_products_budget_witness :
  ∃ tr,
    trace (search_products Mock.entropy (Mock.parsed Fixture.results) Mock.urljoin
             (Mock.scraper 3 Sample.second_fails) "mouse" 2 Mock.fresh).2
      = trace Mock.fresh ++ tr
    ∧ (attempts_in tr ≤ Z.to_nat 2 * Z.to_nat 3)%nat
    ∧ Forall (walk_event (Mock.scraper 3 Sample.second_fails) "mouse" 2) tr.
Proof.
  apply (search_products_budget Mock.entropy (Mock.parsed Fixture.results) Mock.urljoin
           (Mock.scraper 3 Sample.second_fails) "mouse" 2 Mock.fresh).
  discriminate.
Defined.

Lemma search_products_links_query_free_witness :
  Forall (λ u, ∃ path,
            u = Mock.urljoin "https://www.amazon.com" path
            ∧ has_char "?" path = false)
         [ "https://www.amazon.com/Wireless-Mouse/dp/B08N5WRWNW/ref=sr_1_1";
           "https://www.amazon.com/dp/B123456789" ].
Proof.
  apply (search_products_links_query_free Mock.entropy
           (Mock.parsed Fixture.results) Mock.urljoin
           (Mock.scraper 3 (Mock.always (Returned Sample.clean)))
           "mouse" 1 Mock.fresh).
  vm_compute. reflexivity.
Defined.


(** The walk over a site whose first result page the parser rejects:
    the exception leaves [search_products] after the one GET, and no
    link is returned. *)
Example rejected_result_page_ends_the_walk :
  let '(urls, w) :=
    search_products Mock.entropy (Mock.strict Fixture.results) Mock.urljoin
      (Mock.scraper 3 (Mock.always (Returned Sample.rejected))) "mouse" 2
      Mock.fresh in
  urls = Raised "ParserRejectedMarkup" ∧ shape (trace w) = [true].
Proof. vm_compute. done. Qed.

(** The links of the sample result page: the query string is cut, and the
    anchors without a usable [href] are passed over. *)
Example result_page_links :
  page_links Mock.urljoin Fixture.results
  = [ "https://www.amazon.com/Wireless-Mouse/dp/B08N5WRWNW/ref=sr_1_1";
      "https://www.amazon.com/dp/B123456789" ].
Proof. vm_compute. reflexivity. Qed.

Lemma search_products_never_200_witness :
  ∃ w' tr,
    search_products Mock.entropy (Mock.parsed Fixture.results) Mock.urljoin
      (Mock.scraper 3 (Mock.always (Returned (Mock.response 503 "busy"))))
      "mouse" 2 Mock.fresh = (Returned [], w')
    ∧ trace w' = trace Mock.fresh ++ tr
    ∧ shape tr
      = concat (replicate (Z.to_nat 2)
                  (concat (failed_attempt_shape
                             (Mock.scraper 3 (Mock.always (Returned (Mock.response 503 "busy"))))
                             <$> range 3))).
Proof.
  apply (search_products_never_200 Mock.entropy (Mock.parsed Fixture.results)
           Mock.urljoin
           (Mock.scraper 3 (Mock.always (Returned (Mock.response 503 "busy"))))
           "mouse" 2 Mock.fresh).
  intros n u h. simpl. lia.
Defined.

Lemma scrape_multiple_products_budget_witness :
  ∃ tr,
    trace (scrape_multiple_products Mock.entropy Mock.clock (Mock.parsed Sample.page)
             (Mock.scraper 1 Sample.second_fails) Sample.urls Mock.fresh).2
      = trace Mock.fresh ++ tr
    ∧ (attempts_in tr ≤ length Sample.urls * Z.to_nat 1)%nat
    ∧ Forall (run_event (Mock.scraper 1 Sample.second_fails) Sample.urls) tr.
Proof.
  apply (scrape_multiple_products_budget Mock.entropy Mock.clock
           (Mock.parsed Sample.page) (Mock.scraper 1 Sample.second_fails)
           Sample.urls Mock.fresh).
  discriminate.
Defined.

Lemma scrape_multiple_products_urls_witness :
  ∃ kept,
    sublist kept Sample.urls
    ∧ record_url
        <$> omap kept_record
              (scrape_each Mock.entropy Mock.clock (Mock.parsed Sample.page)
                 (Mock.scraper 1 Sample.second_fails) Sample.urls Mock.fresh).1
      = url_entry <$> kept
    ∧ (length
         (omap kept_record
            (scrape_each Mock.entropy Mock.clock (Mock.parsed Sample.page)
               (Mock.scraper 1 Sample.second_fails) Sample.urls Mock.fresh).1)
       ≤ length Sample.urls)%nat.
Proof.
  apply (scrape_multiple_products_urls Mock.entropy Mock.clock
           (Mock.parsed Sample.page) (Mock.scraper 1 Sample.second_fails)
           Sample.urls Mock.fresh).
  vm_compute. reflexivity.
Defined.

Lemma scrape_multiple_products_always_clean_witness :
  ∃ products w' tr,
    scrape_multiple_products Mock.entropy Mock.clock (Mock.strict Sample.page)
      (Mock.scraper 3 (Mock.always (Returned Sample.clean)))
      Sample.urls Mock.fresh = (Returned products, w')
    ∧ record_url <$> products = url_entry <$> Sample.urls
    ∧ trace w' = trace Mock.fresh ++ tr
    ∧ shape tr = tail (concat (replicate (length Sample.urls) [false; true])).
Proof.
  apply (scrape_multiple_products_always_clean Mock.entropy Mock.clock
           (Mock.strict Sample.page)
           (Mock.scraper 3 (Mock.always (Returned Sample.clean)))
           Sample.urls Mock.fresh).
  - reflexivity.
  - intros n u h. exists Sample.clean. split; [reflexivity|]. split; reflexivity.
  - intros n u h r [= <-]. exists Sample.page. vm_compute. reflexivity.
Defined.
(** * Export *)

Section ExportFacts.

Variable strftime_now : World → string.
Variable to_csv : DataFrame → string.
Variable to_excel : DataFrame → string.
Variable json_dump : list (gmap string Value) → string.

(** A row of a frame has no cell in a column the frame lacks. *)
Lemma missing_column (products : list (gmap string Value)) column rec :
  column ∉ columns (DataFrame_of products) → rec ∈ products →
  rec !! column = None.
Proof.
  intros Hnot Hin. apply not_elem_of_dom. intros Hdom. apply Hnot.
  simpl. apply elem_of_union_list. exists (dom rec). split; [|done].
  apply list_elem_of_fmap. by exists rec.
Qed.

(** What the two flattening steps do to one row. *)
Lemma flatten_complex_fields_rows products :
  rows (flatten_complex_fields (DataFrame_of products))
  = (λ rec, alter (flatten " | ") "features"
              (alter (flatten ", ") "images" rec)) <$> products.
Proof.
  set (step1 := λ rec : gmap string Value,
         if bool_decide ("images" ∈ columns (DataFrame_of products))
         then alter (flatten ", ") "images" rec else rec).
  set (step2 := λ rec : gmap string Value,
         if bool_decide ("features" ∈ columns (DataFrame_of products))
         then alter (flatten " | ") "features" rec else rec).
  assert (rows (flatten_complex_fields (DataFrame_of products))
          = step2 <$> (step1 <$> products)) as ->.
  { unfold flatten_complex_fields, step1, step2.
    destruct (bool_decide ("images" ∈ columns (DataFrame_of products)));
      simpl;
      destruct (bool_decide ("features" ∈ ⋃ (dom <$> products))); simpl;
      by rewrite ?list_fmap_id. }
  rewrite <- list_fmap_compose. apply Forall_fmap_ext, Forall_forall.
  intros rec Hin. unfold step1, step2. simpl.
  assert (alter (flatten ", ") "images" rec
          = if bool_decide ("images" ∈ ⋃ (dom <$> products))
            then alter (flatten ", ") "images" rec else rec) as <-.
  { case_bool_decide as Himg; [done|]. apply alter_id. intros x Hx.
    by rewrite (missing_column products "images" rec) in Hx. }
  case_bool_decide as Hfeat; [done|]. symmetry. apply alter_id.
  intros x Hx. rewrite lookup_alter_ne in Hx by discriminate.
  by rewrite (missing_column products "features" rec) in Hx.
Qed.

(** X22. The table written by the CSV and Excel exports has one row per
    product, in order; in each row the [images] cell is the list joined
    with a comma and a space, the [features] cell the list joined with a
    bar between spaces, a cell that holds no list or is missing stays as it
    is, and every other column is untouched. *)
Theorem flatten_complex_fields_cells products i rec :
  products !! i = Some rec →
  ∃ row,
    rows (flatten_complex_fields (DataFrame_of products)) !! i = Some row
    ∧ row !! "images" = flatten ", " <$> rec !! "images"
    ∧ row !! "features" = flatten " | " <$> rec !! "features"
    ∧ ∀ k, k ≠ "images" → k ≠ "features" → row !! k = rec !! k.
Proof.
  intros Hi. rewrite flatten_complex_fields_rows, list_lookup_fmap, Hi.
  eexists. split; [reflexivity|]. split_and!.
  - rewrite lookup_alter_ne by discriminate. by rewrite lookup_alter_eq.
  - by rewrite lookup_alter_eq, lookup_alter_ne by discriminate.
  - intros k H1 H2. by rewrite !lookup_alter_ne by done.
Qed.

Lemma flatten_not_list sep v l : flatten sep v ≠ VList l.
Proof. by destruct v. Qed.

Lemma flatten_rows_no_list products :
  Forall lists_only_in_complex_fields products →
  ∀ row k l,
    row ∈ rows (flatten_complex_fields (DataFrame_of products)) →
    row !! k ≠ Some (VList l).
Proof.
  intros Hall row k l. rewrite flatten_complex_fields_rows.
  intros (rec & -> & Hin)%list_elem_of_fmap.
  rewrite Forall_forall in Hall. specialize (Hall rec Hin).
  destruct (decide (k = "features")) as [->|Hf].
  - rewrite lookup_alter_eq.
    destruct (alter (flatten ", ") "images" rec !! "features") as [v|]; [|done].
    simpl. intros [= H]. by apply flatten_not_list in H.
  - rewrite lookup_alter_ne by done.
    destruct (decide (k = "images")) as [->|Hi].
    + rewrite lookup_alter_eq. destruct (rec !! "images") as [v|]; [|done].
      simpl. intros [= H]. by apply flatten_not_list in H.
    + rewrite lookup_alter_ne by done. intros H.
      destruct (Hall k l H); done.
Qed.

(** X23. When the only lists of the products sit under [images] and
    [features], the table written holds no list in any cell. *)
Theorem flatten_complex_fields_no_list products :
  Forall lists_only_in_complex_fields products →
  ∀ row k l,
    row ∈ rows (flatten_complex_fields (DataFrame_of products)) →
    row !! k ≠ Some (VList l).
Proof. apply flatten_rows_no_list. Qed.

(** X24. With no product the CSV and Excel exports write nothing, while
    the JSON export still writes its file, holding the dump of the empty
    list; and an export never touches a file other than its target. *)
Theorem export_of_nothing filename w fs :
  export_to_csv strftime_now to_csv [] filename w fs = fs
  ∧ export_to_excel strftime_now to_excel [] filename w fs = fs
  ∧ export_to_json strftime_now json_dump [] filename w fs
      !! filename_or_default strftime_now filename ".json" w
    = Some (json_dump [])
  ∧ ∀ products other,
      (other ≠ filename_or_default strftime_now filename ".csv" w →
       export_to_csv strftime_now to_csv products filename w fs !! other
       = fs !! other)
      ∧ (other ≠ filename_or_default strftime_now filename ".xlsx" w →
         export_to_excel strftime_now to_excel products filename w fs !! other
         = fs !! other)
      ∧ (other ≠ filename_or_default strftime_now filename ".json" w →
         export_to_json strftime_now json_dump products filename w fs !! other
         = fs !! other).
Proof.
  split_and!; try done.
  - unfold export_to_json. cbv zeta. by rewrite lookup_insert_eq.
  - intros products other. split_and!; intros Hne.
    + unfold export_to_csv. destruct products; [done|]. cbv zeta.
      by rewrite lookup_insert_ne.
    + unfold export_to_excel. destruct products; [done|]. cbv zeta.
      by rewrite lookup_insert_ne.
    + unfold export_to_json. cbv zeta. by rewrite lookup_insert_ne.
Qed.

End ExportFacts.

(** * Scraping, then exporting; the demo *)

Section DemoFacts.

Variable strftime_now : World → string.
Variable to_csv : DataFrame → string.
Variable json_dump : list (gmap string Value) → string.
Variable entropy : nat → nat.
Variable now_isoformat : World → string.
Variable BeautifulSoup : string → Outcome Soup.
Variable urljoin : string → string → string.
Variable network : Session.

Local Abbreviation scrape_product' :=
  (scrape_product entropy now_isoformat BeautifulSoup).
Local Abbreviation scrape_multiple_products' :=
  (scrape_multiple_products entropy now_isoformat BeautifulSoup).

Lemma scraped_record_lists self url w rec w' :
  scrape_product' self url w = (Returned (Some rec), w') →
  lists_only_in_complex_fields rec.
Proof.
  intros (r & soup & _ & _ & ->)%scrape_product_Some k l
    [Hk _]%lookup_without_None.
  apply product_data_lookup in Hk.
  destruct Hk as [[-> E]|[[-> E]|[[-> E]|[[-> E]|[[-> E]|[[-> E]|
                 [[-> E]|[[-> E]|[[-> E]|[[-> E]|[-> E]]]]]]]]]]];
    try (by left); try (by right);
    try discriminate E;
    match type of E with VList _ = of_option ?o => by destruct o end.
Qed.

Lemma scrape_multiple_products_lists self urls w products :
  (scrape_multiple_products' self urls w).1 = Returned products →
  Forall lists_only_in_complex_fields products.
Proof.
  intros (kept & _ & Hall)%(scrape_multiple_products_records _ _ _
                              (λ rec _, lists_only_in_complex_fields rec));
    [|intros url w0 rec w0'; apply scraped_record_lists].
  induction Hall; by constructor.
Qed.

(** X25. Scraping, then exporting: the table that the CSV and Excel
    exports build from the records of a run holds no list in any cell. *)
Theorem scraped_products_export_flat self urls w products row k l :
  (scrape_multiple_products' self urls w).1 = Returned products →
  row ∈ rows (flatten_complex_fields (DataFrame_of products)) →
  row !! k ≠ Some (VList l).
Proof.
  intros Hrun. apply flatten_rows_no_list.
  by eapply scrape_multiple_products_lists.
Qed.

Lemma scrape_multiple_products_length self urls w products :
  (scrape_multiple_products' self urls w).1 = Returned products →
  (length products ≤ length urls)%nat.
Proof.
  intros (kept & Hsub & Hall)%(scrape_multiple_products_records _ _ _
                                 (λ _ _, True)); [|done].
  rewrite (Forall2_length _ _ _ Hall). by apply sublist_length.
Qed.

Local Abbreviation main' :=
  (main strftime_now to_csv json_dump entropy now_isoformat BeautifulSoup
     urljoin network).

(** X26. The demo stays within bounds: it issues at most 18 GETs, three
    for the first search page of the keyword typed (or of the default
    keyword when nothing was typed) and three for each of at most five
    links found, sleeps between 2 and 4 seconds, and either writes no
    file, or writes the CSV and the JSON file of at least one and at most
    five records. An exception of the parser is caught by [main]: the
    bounds hold then too, and no file is written. *)
Theorem main_is_bounded typed w fs :
  let scraper :=
    {| delay_range := (2, 4); max_retries := 3; session := network;
       user_agents := default_user_agents |} in
  let keyword :=
    if truthy (strip typed) then strip typed else "wireless headphones" in
  let links :=
    match
      (search_products entropy BeautifulSoup urljoin scraper keyword 1 w).1
    with
    | Returned product_urls => product_urls
    | Raised _ => []
    end in
  ∃ tr,
    trace (main' typed w fs).1 = trace w ++ tr
    ∧ (attempts_in tr ≤ 18)%nat
    ∧ Forall (demo_event keyword links) tr
    ∧ ((main' typed w fs).2 = fs
       ∨ ∃ products w',
           (1 ≤ length products ≤ 5)%nat
           ∧ (main' typed w fs).2
             = export_to_json strftime_now json_dump products None w'
                 (export_to_csv strftime_now to_csv products None w' fs)).
Proof.
  intros scraper keyword links. unfold main. cbn [__init__].
  fold scraper. fold keyword.
  assert (user_agents scraper ≠ []) as Hua by discriminate.
  destruct (search_products_trace entropy BeautifulSoup urljoin scraper
              keyword 1 w Hua) as (tr1 & Ht1 & Hle1 & Hall1).
  assert (Forall (demo_event keyword links) tr1) as Hdemo1.
  { eapply Forall_impl; [exact Hall1|]. intros [u h|lo hi]; simpl; [|done].
    intros (page & Hpage & ->). left. by replace page with 1 by lia. }
  change (Z.to_nat 1 * Z.to_nat (max_retries scraper))%nat with 3%nat in Hle1.
  subst links.
  destruct (search_products entropy BeautifulSoup urljoin scraper keyword 1 w)
    as [found w1].
  cbn [fst snd] in *.
  destruct found as [[|u0 rest]|exn];
    [exists tr1; cbn [fst snd]; split_and!; [done | lia | done | by left]
    |
    |exists tr1; cbn [fst snd]; split_and!; [done | lia | done | by left]].
  cbn zeta.
  set (urls := take 5 (u0 :: rest)).
  destruct (scrape_multiple_products_trace entropy now_isoformat BeautifulSoup
              scraper urls w1 Hua) as (tr2 & Ht2 & Hle2 & Hall2).
  pose proof (scrape_multiple_products_length scraper urls w1) as Hlen.
  assert (length urls ≤ 5)%nat as Hfive.
  { unfold urls. rewrite length_take. lia. }
  exists (tr1 ++ tr2).
  assert (Forall (demo_event keyword (u0 :: rest)) (tr1 ++ tr2)) as Hdemo.
  { apply Forall_app. split; [done|].
    eapply Forall_impl; [exact Hall2|]. intros [u h|lo hi]; simpl; [|done].
    intros Hu. by right. }
  assert (attempts_in (tr1 ++ tr2) ≤ 18)%nat as Hbudget.
  { rewrite attempts_in_app.
    change (Z.to_nat (max_retries scraper)) with 3%nat in Hle2. nia. }
  destruct (scrape_multiple_products' scraper urls w1) as [scraped w2].
  cbn [fst snd] in *.
  assert (trace w2 = trace w ++ tr1 ++ tr2) as Htrace
    by (by rewrite Ht2, Ht1, <- app_assoc).
  destruct scraped as [[|p ps]|exn]; cbn [fst snd];
    [by split_and!; [| | |left] | | by split_and!; [| | |left]].
  split_and!; [done..|].
  right. exists (p :: ps), w2. split; [|done].
  specialize (Hlen (p :: ps) eq_refl). simpl in *. lia.
Qed.

End DemoFacts.

Lemma flatten_complex_fields_cells_witness :
  ∃ row,
    rows (flatten_complex_fields
            (DataFrame_of
               [ {[ "title" := VStr "Wireless Mouse";
                    "images" := VList ["https://a/1.jpg"; "https://a/2.jpg"] ]} ]))
      !! 0%nat = Some row
    ∧ row !! "images"
      = flatten ", "
          <$> ({[ "title" := VStr "Wireless Mouse";
                  "images" := VList ["https://a/1.jpg"; "https://a/2.jpg"] ]}
               : gmap string Value) !! "images"
    ∧ row !! "features"
      = flatten " | "
          <$> ({[ "title" := VStr "Wireless Mouse";
                  "images" := VList ["https://a/1.jpg"; "https://a/2.jpg"] ]}
               : gmap string Value) !! "features"
    ∧ ∀ k, k ≠ "images" → k ≠ "features" →
           row !! k
           = ({[ "title" := VStr "Wireless Mouse";
                 "images" := VList ["https://a/1.jpg"; "https://a/2.jpg"] ]}
              : gmap string Value) !! k.
Proof.
  apply (flatten_complex_fields_cells
           [ {[ "title" := VStr "Wireless Mouse";
                "images" := VList ["https://a/1.jpg"; "https://a/2.jpg"] ]} ]
           0%nat).
  reflexivity.
Defined.

(** Two images are written as one cell, joined by a comma and a space. *)
Example images_cell_is_joined :
  (λ row : gmap string Value, row !! "images")
    <$> rows (flatten_complex_fields
                (DataFrame_of
                   [ {[ "title" := VStr "Wireless Mouse";
                        "images" := VList ["https://a/1.jpg"; "https://a/2.jpg"] ]} ]))
  = [ Some (VStr "https://a/1.jpg, https://a/2.jpg") ].
Proof. vm_compute. reflexivity. Qed.

Lemma flatten_complex_fields_no_list_witness :
  hd ∅ (rows (flatten_complex_fields
                (DataFrame_of
                   [ {[ "title" := VStr "Wireless Mouse";
                        "images" := VList ["https://a/1.jpg"] ]} ])))
    !! "images" ≠ Some (VList ["https://a/1.jpg"]).
Proof.
  apply (flatten_complex_fields_no_list
           [ {[ "title" := VStr "Wireless Mouse";
                "images" := VList ["https://a/1.jpg"] ]} ]).
  - constructor; [|constructor].
    intros k l Hk.
    apply lookup_insert_Some in Hk as [[<- Hv]|[_ Hk]]; [discriminate Hv|].
    apply lookup_singleton_Some in Hk as [<- _]. by left.
  - apply (bool_decide_unpack _). vm_compute. exact I.
Defined.

Lemma export_of_nothing_witness :
  export_to_csv Mock.clock (λ _, "csv") [] (Some "out.csv") Mock.fresh ∅ = ∅
  ∧ export_to_excel Mock.clock (λ _, "xlsx") [] (Some "out.csv") Mock.fresh ∅
    = ∅
  ∧ export_to_json Mock.clock (λ _, "[]") [] (Some "out.csv") Mock.fresh ∅
      !! filename_or_default Mock.clock (Some "out.csv") ".json" Mock.fresh
    = Some "[]"
  ∧ ∀ products other,
      (other ≠ filename_or_default Mock.clock (Some "out.csv") ".csv" Mock.fresh →
       export_to_csv Mock.clock (λ _, "csv") products (Some "out.csv")
         Mock.fresh ∅ !! other = (∅ : Files) !! other)
      ∧ (other ≠ filename_or_default Mock.clock (Some "out.csv") ".xlsx" Mock.fresh →
         export_to_excel Mock.clock (λ _, "xlsx") products (Some "out.csv")
           Mock.fresh ∅ !! other = (∅ : Files) !! other)
      ∧ (other ≠ filename_or_default Mock.clock (Some "out.csv") ".json" Mock.fresh →
         export_to_json Mock.clock (λ _, "[]") products (Some "out.csv")
           Mock.fresh ∅ !! other = (∅ : Files) !! other).
Proof.
  apply (export_of_nothing Mock.clock (λ _, "csv") (λ _, "xlsx") (λ _, "[]")
           (Some "out.csv") Mock.fresh ∅).
Defined.

Lemma scraped_products_export_flat_witness :
  hd ∅ (rows (flatten_complex_fields
                (DataFrame_of
                   (omap kept_record
                      (scrape_each Mock.entropy Mock.clock
                         (Mock.parsed Sample.page)
                         (Mock.scraper 1 Sample.second_fails)
                         Sample.urls Mock.fresh).1))))
    !! "images" ≠ Some (VList []).
Proof.
  apply (scraped_products_export_flat Mock.entropy Mock.clock
           (Mock.parsed Sample.page) (Mock.scraper 1 Sample.second_fails)
           Sample.urls Mock.fresh
           (omap kept_record
              (scrape_each Mock.entropy Mock.clock (Mock.parsed Sample.page)
                 (Mock.scraper 1 Sample.second_fails)
                 Sample.urls Mock.fresh).1)).
  - vm_compute. reflexivity.
  - apply (bool_decide_unpack _). vm_compute. exact I.
Defined.

(** The demo on a site that lists two products and serves clean pages:
    three GETs, and two files written. *)
Example demo_run :
  let '(w, fs) :=
    main Mock.clock (λ _, "csv") (λ _, "json") Mock.entropy Mock.clock
      (Mock.parsed Fixture.results) Mock.urljoin
      (Mock.always (Returned Sample.clean)) "  mouse " Mock.fresh ∅ in
  attempts_in (trace w) = 3%nat
  ∧ shape (trace w) = [true; false; true; false; true]
  ∧ fs !! "amazon_products_2025-01-08T10:30:00.csv" = Some "csv"
  ∧ fs !! "amazon_products_2025-01-08T10:30:00.json" = Some "json"
  ∧ size fs = 2%nat.
Proof. vm_compute. done. Qed.


(** The demo on a site whose product page the parser rejects: the
    exception is caught by [main], which writes no file. *)
Example demo_run_rejected_page :
  let '(w, fs) :=
    main Mock.clock (λ _, "csv") (λ _, "json") Mock.entropy Mock.clock
      (Mock.strict Fixture.results) Mock.urljoin
      (Mock.script [ Returned Sample.clean; Returned Sample.rejected ])
      "mouse" Mock.fresh ∅ in
  shape (trace w) = [true; false; true] ∧ fs = ∅.
Proof. vm_compute. done. Qed.
